(** * ShotAPI SDK: request construction, retry loop and batching

    A shallow embedding of the two generations of the SDK client found in the
    repository:

    - [Gen1] is the client of [src/index.ts];
    - [Gen2] is the second copy of the client module, the one with option
      validation, error codes and a chunked [batch].

    Both import [types.ts] and have the same exception class, preset table
    and preset branch of [buildParams]; these are modelled once, ahead of
    the two modules.  The network is an oracle that tells what each [fetch]
    settles to, and every call returns the log of its requests and waits
    next to its result. *)

From Stdlib Require Import ZArith List String Ascii Bool Lia DecimalString.
Import ListNotations.
Local Open Scope string_scope.
Local Open Scope Z_scope.

(** ** JavaScript values *)

(** Numbers.  The SDK only formats numbers, tests them for truthiness and
    compares them with integer bounds.  They are modelled as decimal
    fixed-point values with three fractional digits, held as a count of
    thousandths, which is exact for every entry of [DEVICE_PRESETS]
    (2.625 included).  NaN and the infinities are outside the model. *)
Record number : Set := Thousandths { thousandths : Z }.

Definition int (n : Z) : number := Thousandths (1000 * n).

(** [if (x)] on a number: zero is falsy. *)
Definition truthy (x : number) : bool := negb (thousandths x =? 0).

Definition number_ltb (x y : number) : bool := thousandths x <? thousandths y.
Definition number_eqb (x y : number) : bool := thousandths x =? thousandths y.

Definition digits (n : Z) : string := NilZero.string_of_uint (N.to_uint (Z.to_N n)).

Definition digit (n : Z) : string := digits (n mod 10).

(** The fractional digits of [f] thousandths, without trailing zeros. *)
Definition fraction (f : Z) : string :=
  if negb (f mod 10 =? 0) then digit (f / 100) ++ digit (f / 10) ++ digit f
  else if negb ((f / 10) mod 10 =? 0) then digit (f / 100) ++ digit (f / 10)
  else digit (f / 100).

(** [Number.prototype.toString()], radix 10, for magnitudes below 10^21;
    from there on JavaScript prints an exponent ([1e+21]), which this
    definition does not. *)
Definition toString (x : number) : string :=
  let z := thousandths x in
  let a := Z.abs z in
  (if z <? 0 then "-" else EmptyString) ++ digits (a / 1000)
  ++ (if a mod 1000 =? 0 then EmptyString else "." ++ fraction (a mod 1000)).

(** [if (s)] on a string: the empty string is falsy. *)
Definition nonempty (s : string) : bool :=
  match s with EmptyString => false | String _ _ => true end.

(** Anything a [throw] or a rejected promise can carry. *)
Record ShotAPIException : Set := mkException {
  message : string;
  code : option string;
  details : option string;
  statusCode : option Z
}.

Inductive thrown : Set :=
| Exception (e : ShotAPIException)        (* instanceof ShotAPIException *)
| JsError (name : string) (msg : string)  (* any other Error: SyntaxError, TypeError, AbortError *)
| NonError.                               (* a thrown value that is not an Error *)

Inductive outcome (A : Type) : Type :=
| Returns (a : A)
| Throws (e : thrown).
Arguments Returns {A} a.
Arguments Throws {A} e.

(** ** URLSearchParams *)

Module URLSearchParams.

(** The ordered list of name/value pairs behind a [URLSearchParams]. *)
Definition t : Set := list (string * string).

Definition empty : t := [].

Definition named (name : string) (p : string * string) : bool :=
  String.eqb (fst p) name.

Definition has (name : string) (l : t) : bool := existsb (named name) l.

Definition get (name : string) (l : t) : option string :=
  option_map snd (find (named name) l).

(** [set] on a name already there: the first pair takes the value, the
    other pairs of that name go. *)
Fixpoint replace (name value : string) (l : t) : t :=
  match l with
  | [] => []
  | p :: rest =>
      if named name p
      then (name, value) :: filter (fun q => negb (named name q)) rest
      else p :: replace name value rest
  end.

Definition set (name value : string) (l : t) : t :=
  if has name l then replace name value l else (l ++ [(name, value)])%list.

(** application/x-www-form-urlencoded serialisation, byte by byte
    (strings are taken as their UTF-8 bytes). *)
Definition hex (n : N) : ascii :=
  if (n <? 10)%N then ascii_of_N (48 + n) else ascii_of_N (55 + n).

Definition unreserved (c : ascii) : bool :=
  let n := N_of_ascii c in
  ((48 <=? n) && (n <=? 57) || (65 <=? n) && (n <=? 90)
   || (97 <=? n) && (n <=? 122)
   || (n =? 42) || (n =? 45) || (n =? 46) || (n =? 95))%N.

Fixpoint encode (s : string) : string :=
  match s with
  | EmptyString => EmptyString
  | String c rest =>
      let n := N_of_ascii c in
      if unreserved c then String c (encode rest)
      else if (n =? 32)%N then String "+" (encode rest)
      else String "%" (String (hex (n / 16)) (String (hex (n mod 16)) (encode rest)))
  end.

Definition pair_toString (p : string * string) : string :=
  encode (fst p) ++ "=" ++ encode (snd p).

Definition toString (l : t) : string := String.concat "&" (map pair_toString l).

End URLSearchParams.

(** ** types.ts *)

Inductive ImageFormat : Set := png | jpeg | webp | pdf.

Definition ImageFormat_string (f : ImageFormat) : string :=
  match f with png => "png" | jpeg => "jpeg" | webp => "webp" | pdf => "pdf" end.

(** [ScreenshotOptions].  Optional fields are [option]s ([None] is
    [undefined]).  [device] is declared as the union of the eleven preset
    names; it is kept as a string here because the builder guards against
    names it does not know. *)
Record ScreenshotOptions : Set := mkOptions {
  url : string;
  width : option number;
  height : option number;
  device : option string;
  fullPage : option bool;
  format : option ImageFormat;
  quality : option number;
  scale : option number;
  delay : option number;
  waitForSelector : option string;
  selector : option string;
  css : option string;
  js : option string;
  blockAds : option bool;
  hideCookieBanners : option bool;
  darkMode : option bool;
  mobile : option bool;
  thumbnailWidth : option number
}.

(** Options with a url and nothing else. *)
Definition only_url (u : string) : ScreenshotOptions :=
  mkOptions u None None None None None None None None None None None None
            None None None None None.

(** [{ ...options, url }] *)
Definition with_url (o : ScreenshotOptions) (u : string) : ScreenshotOptions :=
  mkOptions u (width o) (height o) (device o) (fullPage o) (format o)
            (quality o) (scale o) (delay o) (waitForSelector o) (selector o)
            (css o) (js o) (blockAds o) (hideCookieBanners o) (darkMode o)
            (mobile o) (thumbnailWidth o).

(** The same options with other explicit viewport fields. *)
Definition with_viewport (o : ScreenshotOptions)
    (w h s : option number) (m : option bool) : ScreenshotOptions :=
  mkOptions (url o) w h (device o) (fullPage o) (format o)
            (quality o) s (delay o) (waitForSelector o) (selector o)
            (css o) (js o) (blockAds o) (hideCookieBanners o) (darkMode o)
            m (thumbnailWidth o).

Record DevicePresetConfig : Set := mkPreset {
  preset_width : number;
  preset_height : number;
  preset_mobile : bool;
  preset_scale : number
}.

(** [ShotAPIConfig].  [timeout], [retries] and [maxConcurrent] are counts
    (milliseconds, attempts, requests) and are kept as integers. *)
Record ShotAPIConfig : Set := mkConfig {
  config_apiKey : string;
  config_baseUrl : option string;
  config_timeout : option Z;
  config_retries : option Z;
  config_maxConcurrent : option Z
}.

(** ** The preset table *)

Definition DEVICE_PRESETS (name : string) : option DevicePresetConfig :=
  if String.eqb name "desktop" then Some (mkPreset (int 1920) (int 1080) false (int 1))
  else if String.eqb name "laptop" then Some (mkPreset (int 1366) (int 768) false (int 1))
  else if String.eqb name "tablet" then Some (mkPreset (int 768) (int 1024) true (int 2))
  else if String.eqb name "mobile" then Some (mkPreset (int 375) (int 812) true (int 3))
  else if String.eqb name "iphone-14" then Some (mkPreset (int 390) (int 844) true (int 3))
  else if String.eqb name "iphone-14-pro" then Some (mkPreset (int 393) (int 852) true (int 3))
  else if String.eqb name "iphone-14-pro-max" then Some (mkPreset (int 430) (int 932) true (int 3))
  else if String.eqb name "ipad" then Some (mkPreset (int 810) (int 1080) true (int 2))
  else if String.eqb name "ipad-pro" then Some (mkPreset (int 1024) (int 1366) true (int 2))
  else if String.eqb name "galaxy-s23" then Some (mkPreset (int 360) (int 780) true (int 3))
  else if String.eqb name "pixel-7" then Some (mkPreset (int 412) (int 915) true (Thousandths 2625))
  else None.

(** [Object.keys(DEVICE_PRESETS)] *)
Definition devicePresets : list string :=
  ["desktop"; "laptop"; "tablet"; "mobile"; "iphone-14"; "iphone-14-pro";
   "iphone-14-pro-max"; "ipad"; "ipad-pro"; "galaxy-s23"; "pixel-7"].

(** [DEVICE_PRESETS] is an object literal, so [DEVICE_PRESETS[name]] also
    finds what every object inherits from [Object.prototype]. *)
Definition Object_prototype : list string :=
  ["constructor"; "__defineGetter__"; "__defineSetter__"; "hasOwnProperty";
   "__lookupGetter__"; "__lookupSetter__"; "isPrototypeOf";
   "propertyIsEnumerable"; "toString"; "valueOf"; "__proto__";
   "toLocaleString"].

Inductive property : Set :=
| Own (preset : DevicePresetConfig)   (* an entry of the table *)
| Inherited                           (* a truthy value without width or height *)
| Undefined.

(** [DEVICE_PRESETS[name]] *)
Definition lookup (name : string) : property :=
  match DEVICE_PRESETS name with
  | Some preset => Own preset
  | None =>
      if existsb (String.eqb name) Object_prototype then Inherited else Undefined
  end.

(** ** Conditional emission *)

Definition set_number (name : string) (v : option number)
    (p : URLSearchParams.t) : URLSearchParams.t :=
  match v with
  | Some n => if truthy n then URLSearchParams.set name (toString n) p else p
  | None => p
  end.

Definition set_string (name : string) (v : option string)
    (p : URLSearchParams.t) : URLSearchParams.t :=
  match v with
  | Some s => if nonempty s then URLSearchParams.set name s p else p
  | None => p
  end.

Definition set_flag (name : string) (v : option bool)
    (p : URLSearchParams.t) : URLSearchParams.t :=
  match v with
  | Some true => URLSearchParams.set name "true" p
  | _ => p
  end.

Definition set_format (v : option ImageFormat)
    (p : URLSearchParams.t) : URLSearchParams.t :=
  match v with
  | Some f => URLSearchParams.set "format" (ImageFormat_string f) p
  | None => p
  end.

(** [if (options.device)] *)
Definition device_given (o : ScreenshotOptions) : bool :=
  match device o with Some d => nonempty d | None => false end.

(** The branch of [buildParams] under the comment "Handle device preset";
    it is the same in both generations.  Reading [preset.width] off an
    inherited property gives [undefined], and [undefined.toString()]
    throws. *)
Definition handle_device (o : ScreenshotOptions)
    (p : URLSearchParams.t) : outcome URLSearchParams.t :=
  match device o with
  | Some (String _ _ as d) =>
      match lookup d with
      | Own preset =>
          let p := URLSearchParams.set "width" (toString (preset_width preset)) p in
          let p := URLSearchParams.set "height" (toString (preset_height preset)) p in
          let p := if preset_mobile preset then URLSearchParams.set "mobile" "true" p else p in
          let p := if negb (number_eqb (preset_scale preset) (int 1))
                   then URLSearchParams.set "scale" (toString (preset_scale preset)) p
                   else p in
          Returns p
      | Inherited =>
          Throws (JsError "TypeError" "Cannot read properties of undefined (reading 'toString')")
      | Undefined => Returns p
      end
  | _ =>
      let p := set_number "width" (width o) p in
      let p := set_number "height" (height o) p in
      Returns p
  end.

Definition bind {A B : Type} (x : outcome A) (k : A -> outcome B) : outcome B :=
  match x with
  | Returns a => k a
  | Throws e => Throws e
  end.

(** ** The network, as the client sees it *)

(** What [response.json()] resolves to.  Of an object only the fields the
    client reads are kept, next to a [payload] standing for the rest. *)
Inductive json : Set :=
| JNull
| JPrimitive (text : string)
| JObject (error code details : option string) (payload : string).

Record Response : Set := mkResponse {
  status : Z;
  statusText : string;
  body : outcome json        (* the result of [response.json()] *)
}.

(** [response.ok] *)
Definition ok (r : Response) : bool := (200 <=? status r) && (status r <=? 299).

(** A server: what the [n]-th [fetch] of a request URL settles to
    ([Throws] for a rejected fetch: connection failure, or the abort fired
    by the timeout). *)
Definition server : Type := string -> Z -> outcome Response.

Inductive event : Set :=
| Fetch (request_url : string)
| Sleep (ms : Z).

(** [x || fallback] on an optional string. *)
Definition or_else (x : option string) (fallback : string) : string :=
  match x with
  | Some (String _ _ as s) => s
  | _ => fallback
  end.

(** ** Promise.all *)

(** A promise that has settled: its result, and when it settled. *)
Definition settled (A : Type) : Type := (nat * outcome A)%type.

(** The rejection that comes first in time (the one listed first among
    rejections of the same instant). *)
Fixpoint first_rejection {A : Type} (ps : list (settled A)) : option (nat * thrown) :=
  match ps with
  | [] => None
  | (_, Returns _) :: rest => first_rejection rest
  | (t, Throws e) :: rest =>
      match first_rejection rest with
      | Some (t', e') => if (t' <? t)%nat then Some (t', e') else Some (t, e)
      | None => Some (t, e)
      end
  end.

Fixpoint fulfilled {A : Type} (ps : list (settled A)) : list A :=
  match ps with
  | [] => []
  | (_, Returns a) :: rest => a :: fulfilled rest
  | (_, Throws _) :: rest => fulfilled rest
  end.

(** [Promise.all]: the values in the order of the promises, or the first
    rejection. *)
Definition Promise_all {A : Type} (ps : list (settled A)) : outcome (list A) :=
  match first_rejection ps with
  | Some (_, e) => Throws e
  | None => Returns (fulfilled ps)
  end.

(** What [batch] does, seen from outside: rounds of [screenshot] calls
    started together and awaited together, and pauses. *)
Inductive step : Set :=
| Round (targets : list string)
| Pause (ms : Z).

(** ** The first generation: src/index.ts *)

Module Gen1.

Record ShotAPI : Set := mkClient {
  apiKey : string;
  baseUrl : string;
  timeout : Z;
  retries : Z
}.

Definition constructor (config : ShotAPIConfig) : outcome ShotAPI :=
  if negb (nonempty (config_apiKey config))
  then Throws (Exception (mkException "API key is required" None None None))
  else Returns
    {| apiKey := config_apiKey config;
       baseUrl := or_else (config_baseUrl config) "https://shotapi.dev";
       timeout := match config_timeout config with
                  | Some 0 | None => 30000
                  | Some t => t
                  end;
       retries := match config_retries config with
                  | Some r => r
                  | None => 2
                  end |}.

Definition buildParams (this : ShotAPI) (options : ScreenshotOptions)
    : outcome URLSearchParams.t :=
  let params := URLSearchParams.empty in
  let params := URLSearchParams.set "url" (url options) params in
  let params := URLSearchParams.set "api_key" (apiKey this) params in
  (* Handle device preset *)
  bind (handle_device options params) (fun params =>
  (* Basic options *)
  let params := set_flag "full_page" (fullPage options) params in
  let params := set_format (format options) params in
  let params := set_number "quality" (quality options) params in
  let params := set_number "scale" (scale options) params in
  let params := set_number "delay" (delay options) params in
  let params := set_string "wait_for" (waitForSelector options) params in
  let params := set_flag "dark_mode" (darkMode options) params in
  let params := set_flag "mobile" (mobile options) params in
  (* Premium options *)
  let params := set_string "selector" (selector options) params in
  let params := set_string "css" (css options) params in
  let params := set_string "js" (js options) params in
  let params := set_flag "block_ads" (blockAds options) params in
  let params := set_flag "hide_cookie_banners" (hideCookieBanners options) params in
  let params := set_number "thumbnail_width" (thumbnailWidth options) params in
  Returns params).

(** The [try] block of [request]: the body is parsed first, the status
    is looked at afterwards. *)
Definition try_block (fetched : outcome Response) : outcome json :=
  bind fetched (fun response =>
  bind (body response) (fun data =>
  if negb (ok response) then
    match data with
    | JNull =>
        Throws (JsError "TypeError" "Cannot read properties of null (reading 'error')")
    | JPrimitive _ =>
        Throws (Exception (mkException "Unknown error" None None (Some (status response))))
    | JObject error code details _ =>
        Throws (Exception (mkException (or_else error "Unknown error") code details
                                       (Some (status response))))
    end
  else Returns data)).

(** [error instanceof ShotAPIException && error.statusCode && error.statusCode < 500] *)
Definition client_error (error : thrown) : bool :=
  match error with
  | Exception e =>
      match statusCode e with
      | Some s => negb (s =? 0) && (s <? 500)
      | None => false
      end
  | _ => false
  end.

(** An attempt after which the loop goes on: the [try] block threw, and
    the [catch] clause did not rethrow. *)
Definition retryable (fetched : outcome Response) : bool :=
  match try_block fetched with
  | Returns _ => false
  | Throws error => negb (client_error error)
  end.

Section Request.

Variable this : ShotAPI.
Variable net : server.
Variable request_url : string.

(** The [for] loop of [request], with [remaining] iterations to go
    ([attempt <= this.retries] holds for [retries + 1] values of
    [attempt], from 0 on). *)
Fixpoint attempts (remaining : nat) (attempt : Z) (lastError : option thrown)
    : list event * outcome json :=
  match remaining with
  | O =>
      ([], Throws match lastError with
                  | Some e => e
                  | None => Exception (mkException "Request failed after retries"
                                                   None None None)
                  end)
  | S remaining =>
      match try_block (net request_url attempt) with
      | Returns data => ([Fetch request_url], Returns data)
      | Throws error =>
          (* Don't retry on client errors (4xx) *)
          if client_error error then ([Fetch request_url], Throws error)
          else
            (* Wait before retry (exponential backoff) *)
            let wait := if attempt <? retries this
                        then [Sleep (2 ^ attempt * 1000)] else [] in
            let (log, result) := attempts remaining (attempt + 1) (Some error) in
            (Fetch request_url :: wait ++ log, result)
      end
  end.

End Request.

Definition request (this : ShotAPI) (net : server) (endpoint : string)
    (params : URLSearchParams.t) : list event * outcome json :=
  let url := baseUrl this ++ endpoint ++ "?" ++ URLSearchParams.toString params in
  attempts this net url (Z.to_nat (retries this + 1)) 0 None.

Definition screenshot (this : ShotAPI) (net : server) (options : ScreenshotOptions)
    : list event * outcome json :=
  if negb (nonempty (url options))
  then ([], Throws (Exception (mkException "URL is required" None None None)))
  else
    match buildParams this options with
    | Throws e => ([], Throws e)
    | Returns params => request this net "/api/v1/screenshot" params
    end.

(** [batch]: every url is mapped to a [screenshot] call at once; [finish]
    tells when the call for a url settles. *)
Definition batch (this : ShotAPI) (net : server) (finish : string -> nat)
    (urls : list string) (options : ScreenshotOptions)
    : list step * outcome (list json) :=
  let promises :=
    map (fun url => (finish url, snd (screenshot this net (with_url options url)))) urls in
  ([Round urls], Promise_all promises).

End Gen1.

(** [Array.prototype.slice(start, end)] *)
Definition clamp (len k : Z) : Z :=
  if k <? 0 then Z.max (len + k) 0 else Z.min k len.

Definition slice {A : Type} (l : list A) (start stop : Z) : list A :=
  let len := Z.of_nat (List.length l) in
  let from := clamp len start in
  let to := clamp len stop in
  firstn (Z.to_nat (to - from)) (skipn (Z.to_nat from) l).

(** ** The second generation *)

Module Gen2.

Record ShotAPI : Set := mkClient {
  apiKey : string;
  baseUrl : string;
  timeout : Z;
  retries : Z;
  maxConcurrent : Z
}.

Definition constructor (config : ShotAPIConfig) : outcome ShotAPI :=
  if negb (nonempty (config_apiKey config))
  then Throws (Exception (mkException "API key is required" (Some "MISSING_API_KEY")
                                      None None))
  else Returns
    {| apiKey := config_apiKey config;
       baseUrl := or_else (config_baseUrl config) "https://shotapi.dev";
       timeout := match config_timeout config with
                  | Some 0 | None => 30000
                  | Some t => t
                  end;
       retries := match config_retries config with
                  | Some r => r
                  | None => 2
                  end;
       maxConcurrent := match config_maxConcurrent config with
                        | Some m => m
                        | None => 5
                        end |}.

Definition buildParams (this : ShotAPI) (options : ScreenshotOptions)
    : outcome URLSearchParams.t :=
  let params := URLSearchParams.empty in
  let params := URLSearchParams.set "url" (url options) params in
  let params := URLSearchParams.set "api_key" (apiKey this) params in
  (* Handle device preset *)
  bind (handle_device options params) (fun params =>
  (* Basic options *)
  let params := set_flag "full_page" (fullPage options) params in
  let params := set_format (format options) params in
  let params := set_number "quality" (quality options) params in
  let params := if negb (device_given options)
                then set_number "scale" (scale options) params else params in
  let params := set_number "delay" (delay options) params in
  let params := set_string "wait_for" (waitForSelector options) params in
  let params := set_flag "dark_mode" (darkMode options) params in
  let params := if negb (device_given options)
                then set_flag "mobile" (mobile options) params else params in
  (* Premium options *)
  let params := set_string "selector" (selector options) params in
  let params := set_string "css" (css options) params in
  let params := set_string "js" (js options) params in
  let params := set_flag "block_ads" (blockAds options) params in
  let params := set_flag "hide_cookie_banners" (hideCookieBanners options) params in
  let params := set_number "thumbnail_width" (thumbnailWidth options) params in
  Returns params).

(** The exception built for a response that is not ok; a body that does
    not parse leaves [errorData] null. *)
Definition http_error (response : Response) : ShotAPIException :=
  let generic := "HTTP " ++ toString (int (status response)) ++ ": "
                 ++ statusText response in
  match body response with
  | Returns (JObject error code details _) =>
      mkException (or_else error generic) (Some (or_else code "HTTP_ERROR")) details
                  (Some (status response))
  | _ => mkException generic (Some "HTTP_ERROR") None (Some (status response))
  end.

(** What the [catch] clause records for an error that is not rethrown. *)
Definition classify (this : ShotAPI) (name msg : string) : ShotAPIException :=
  if String.eqb name "AbortError"
  then mkException ("Request timeout after " ++ toString (int (timeout this)) ++ "ms")
                   (Some "TIMEOUT") None None
  else mkException (or_else (Some msg) "Network error") (Some "NETWORK_ERROR") None None.

Definition unknown_error : ShotAPIException :=
  mkException "Unknown error occurred" (Some "UNKNOWN_ERROR") None None.

(** One turn of the loop of [request]. *)
Inductive turn : Set :=
| Done (data : json)                 (* return data *)
| Raise (error : thrown)             (* throw out of the loop *)
| Retry (lastError : ShotAPIException).

Definition attempt_once (this : ShotAPI) (fetched : outcome Response) : turn :=
  match fetched with
  | Returns response =>
      (* Check response status before parsing JSON *)
      if negb (ok response) then
        let error := http_error response in
        (* Don't retry on client errors (4xx) *)
        if (400 <=? status response) && (status response <? 500)
        then Raise (Exception error)
        else Retry error
      else
        match body response with
        | Returns data => Done data
        | Throws (Exception e) => Raise (Exception e)
        | Throws (JsError name msg) => Retry (classify this name msg)
        | Throws NonError => Retry unknown_error
        end
  | Throws (Exception e) => Raise (Exception e)
  | Throws (JsError name msg) => Retry (classify this name msg)
  | Throws NonError => Retry unknown_error
  end.

Section Request.

Variable this : ShotAPI.
Variable net : server.
Variable request_url : string.

Fixpoint attempts (remaining : nat) (attempt : Z) (lastError : option ShotAPIException)
    : list event * outcome json :=
  match remaining with
  | O =>
      ([], Throws (Exception
             match lastError with
             | Some e => e
             | None => mkException "Request failed after retries" (Some "MAX_RETRIES")
                                   None None
             end))
  | S remaining =>
      match attempt_once this (net request_url attempt) with
      | Done data => ([Fetch request_url], Returns data)
      | Raise error => ([Fetch request_url], Throws error)
      | Retry error =>
          (* Wait before retry (exponential backoff) *)
          let wait := if attempt <? retries this
                      then [Sleep (2 ^ attempt * 1000)] else [] in
          let (log, result) := attempts remaining (attempt + 1) (Some error) in
          (Fetch request_url :: wait ++ log, result)
      end
  end.

End Request.

Definition request (this : ShotAPI) (net : server) (endpoint : string)
    (params : URLSearchParams.t) : list event * outcome json :=
  let url := baseUrl this ++ endpoint ++ "?" ++ URLSearchParams.toString params in
  attempts this net url (Z.to_nat (retries this + 1)) 0 None.

Section Client.

(** [new URL(url).protocol], or [None] when the constructor throws.
    The URL parser is the platform's; the client is verified for any. *)
Variable protocol : string -> option string.

Definition isValidUrl (url : string) : bool :=
  match protocol url with
  | Some parsed => String.eqb parsed "http:" || String.eqb parsed "https:"
  | None => false
  end.

Definition invalid (msg code : string) : list event * outcome json :=
  ([], Throws (Exception (mkException msg (Some code) None None))).

Definition out_of_range (v : option number) (low high : Z) : bool :=
  match v with
  | Some x => number_ltb x (int low) || number_ltb (int high) x
  | None => false
  end.

Definition screenshot (this : ShotAPI) (net : server) (options : ScreenshotOptions)
    : list event * outcome json :=
  (* Validate URL *)
  if negb (nonempty (url options)) then invalid "URL is required" "MISSING_URL"
  else if negb (isValidUrl (url options))
  then invalid ("Invalid URL: " ++ url options
                ++ ". URL must start with http:// or https://") "INVALID_URL"
  (* Validate quality if provided *)
  else if out_of_range (quality options) 1 100
  then invalid "Quality must be between 1 and 100" "INVALID_QUALITY"
  (* Validate delay if provided *)
  else if out_of_range (delay options) 0 10000
  then invalid "Delay must be between 0 and 10000 milliseconds" "INVALID_DELAY"
  else
    match buildParams this options with
    | Throws e => ([], Throws e)
    | Returns params => request this net "/api/v1/screenshot" params
    end.

Section Batch.

Variable this : ShotAPI.
Variable net : server.
Variable finish : string -> nat.
Variable urls : list string.
Variable options : ScreenshotOptions.

(** The loop of [batch] from index [i] on; [None] when [fuel] turns
    of the loop were not enough to leave it. *)
Fixpoint chunks (fuel : nat) (i : Z) (results : list json)
    : option (list step * outcome (list json)) :=
  match fuel with
  | O => None
  | S fuel =>
      if i <? Z.of_nat (List.length urls) then
        let chunk := slice urls i (i + maxConcurrent this) in
        let promises :=
          map (fun url => (finish url, snd (screenshot this net (with_url options url))))
              chunk in
        match Promise_all promises with
        | Throws e => Some ([Round chunk], Throws e)
        | Returns chunkResults =>
            let results := (results ++ chunkResults)%list in
            (* Small delay between chunks to avoid rate limiting *)
            let pause := if i + maxConcurrent this <? Z.of_nat (List.length urls)
                         then [Pause 100] else [] in
            match chunks fuel (i + maxConcurrent this) results with
            | Some (log, result) => Some (Round chunk :: pause ++ log, result)
            | None => None
            end
        end
      else Some ([], Returns results)
  end.

Definition batch (fuel : nat) : option (list step * outcome (list json)) :=
  chunks fuel 0 [].

End Batch.

End Client.

End Gen2.

(** ** The backoff schedule, as the specification words it *)

(** [failures] failed attempts from attempt [n] on, each followed by a wait
    of [2^n] seconds, then one last attempt with no wait behind it. *)
Fixpoint backoff (request_url : string) (n : Z) (failures : nat) : list event :=
  match failures with
  | O => [Fetch request_url]
  | S k => Fetch request_url :: Sleep (1000 * 2 ^ n) :: backoff request_url (n + 1) k
  end.

(** What the explicit [scale] and [mobile] options emit, when they are read. *)
Definition explicit_scale (o : ScreenshotOptions) : option string :=
  match scale o with
  | Some n => if truthy n then Some (toString n) else None
  | None => None
  end.

Definition explicit_mobile (o : ScreenshotOptions) : option string :=
  match mobile o with
  | Some true => Some "true"
  | _ => None
  end.

(** What an optional field puts on the wire: a number when it is not zero,
    a string when it is not empty, a flag when it is [true]. *)
Definition emitted_number (v : option number) : option string :=
  match v with
  | Some n => if truthy n then Some (toString n) else None
  | None => None
  end.

Definition emitted_string (v : option string) : option string :=
  match v with
  | Some (String _ _ as s) => Some s
  | _ => None
  end.

Definition emitted_flag (v : option bool) : option string :=
  match v with
  | Some true => Some "true"
  | _ => None
  end.

(** [x ?? y] on what two emissions under one name leave: the later one,
    when there is one. *)
Definition later (second first : option string) : option string :=
  match second with
  | Some s => Some s
  | None => first
  end.

(** The wire names of the optional fields. *)
Definition option_names : list string :=
  ["width"; "height"; "mobile"; "scale"; "full_page"; "format"; "quality"; "delay";
   "wait_for"; "dark_mode"; "selector"; "css"; "js"; "block_ads";
   "hide_cookie_banners"; "thumbnail_width"].

(** What the second generation records for a fetch that the timeout
    aborted. *)
Definition timeout_error (this : Gen2.ShotAPI) : ShotAPIException :=
  mkException ("Request timeout after " ++ toString (int (Gen2.timeout this)) ++ "ms")
              (Some "TIMEOUT") None None.

(** [static getDevicePreset(device)] *)
Definition getDevicePreset (device : string) : property := lookup device.

(** ** Chunked batches, as the specification words them *)

(** [Chunked size l cs]: [cs] cuts [l] into consecutive chunks of [size]
    elements, the last one possibly shorter. *)
Inductive Chunked {A : Type} (size : nat) : list A -> list (list A) -> Prop :=
| Chunked_nil : Chunked size [] []
| Chunked_cons (l : list A) (cs : list (list A)) :
    l <> [] ->
    Chunked size (skipn size l) cs ->
    Chunked size l (firstn size l :: cs).

(** One round per chunk, and a pause of 100ms between two rounds. *)
Fixpoint paced (cs : list (list string)) : list step :=
  match cs with
  | [] => []
  | c :: rest =>
      Round c :: match rest with
                 | [] => []
                 | _ :: _ => Pause 100 :: paced rest
                 end
  end.

(** ** Scenarios *)

Module Scenario.

Definition v1 : Gen1.ShotAPI := Gen1.mkClient "KEY" "https://shotapi.dev" 30000 2.

Definition v1_no_retry : Gen1.ShotAPI := Gen1.mkClient "KEY" "https://shotapi.dev" 30000 0.

Definition v2 : Gen2.ShotAPI := Gen2.mkClient "KEY" "https://shotapi.dev" 30000 2 2.

Definition endpoint : string := "/api/v1/screenshot".

Definition shot (name : string) : json := JObject None None None name.

Definition respond (code : Z) (text : string) (data : outcome json) : outcome Response :=
  Returns (mkResponse code text data).

Definition not_json : outcome json :=
  Throws (JsError "SyntaxError" "Unexpected token < in JSON at position 0").

Definition example_com : string := "https://example.com".

Definition example_params : URLSearchParams.t :=
  [("url", example_com); ("api_key", "KEY")].

Definition example_request : string :=
  "https://shotapi.dev/api/v1/screenshot?url=https%3A%2F%2Fexample.com&api_key=KEY".

(** 503, 503, then 200. *)
Definition busy_twice : server :=
  fun _ n =>
    if n <? 2
    then respond 503 "Service Unavailable" (Returns (JObject (Some "busy") None None "none"))
    else respond 200 "OK" (Returns (shot "capture")).

(** Every answer is a 404 with an HTML page for a body. *)
Definition not_found_page : server :=
  fun _ _ => respond 404 "Not Found" not_json.

(** Every answer is a 500 with an HTML page for a body. *)
Definition broken_gateway : server :=
  fun _ _ => respond 500 "Internal Server Error" not_json.

(** Every answer is a 400 with a JSON error body. *)
Definition bad_request : server :=
  fun _ _ => respond 400 "Bad Request"
               (Returns (JObject (Some "Invalid selector") (Some "BAD_SELECTOR") None "none")).

(** Every fetch is aborted by the timeout. *)
Definition never_answers : server :=
  fun _ _ => Throws (JsError "AbortError" "This operation was aborted").

(** Every answer is a 200 whose payload names the request. *)
Definition echo : server :=
  fun request_url _ => respond 200 "OK" (Returns (shot request_url)).

Definition six : list string := ["a"; "b"; "c"; "d"; "e"; "f"].

(** [{ url, device, width: 999, scale, mobile }] *)
Definition preset_request (name : string) (s : option number) (m : option bool)
    : ScreenshotOptions :=
  mkOptions example_com (Some (int 999)) None (Some name) None None None s None
            None None None None None None None m None.

(** [{ url, width: 1280, height: 720, fullPage: true, format: 'jpeg',
      quality: 90, waitForSelector: '#app', blockAds: false }] *)
Definition full_page_jpeg : ScreenshotOptions :=
  mkOptions example_com (Some (int 1280)) (Some (int 720)) None (Some true)
            (Some jpeg) (Some (int 90)) None None (Some "#app") None None None
            (Some false) None None None None.

(** [{ url, quality }] *)
Definition with_quality (q : Z) : ScreenshotOptions :=
  mkOptions example_com None None None None None (Some (int q)) None None
            None None None None None None None None None.

End Scenario.

(** * Theorems *)

(** ** The retry loop of the first generation *)

Section Gen1_request.

Variable this : Gen1.ShotAPI.
Variable net : server.
Variable request_url : string.

(** The last turn of the loop: nothing follows a terminal attempt. *)
Lemma gen1_attempts_terminal (remaining : nat) (attempt : Z) (last : option thrown) :
  Gen1.retryable (net request_url attempt) = false ->
  Gen1.attempts this net request_url (S remaining) attempt last
  = ([Fetch request_url], Gen1.try_block (net request_url attempt)).
Proof.
  unfold Gen1.retryable. cbn [Gen1.attempts].
  destruct (Gen1.try_block (net request_url attempt)) as [data | error]; [reflexivity |].
  destruct (Gen1.client_error error); [reflexivity | discriminate].
Qed.

(** A retryable failure on the turn that exhausts the loop is raised as it is. *)
Lemma gen1_attempts_exhausted (attempt : Z) (last : option thrown) :
  Gen1.retryable (net request_url attempt) = true ->
  Gen1.retries this <= attempt ->
  Gen1.attempts this net request_url 1 attempt last
  = ([Fetch request_url], Gen1.try_block (net request_url attempt)).
Proof.
  unfold Gen1.retryable. cbn [Gen1.attempts]. intros Hretry Hlast.
  destruct (Gen1.try_block (net request_url attempt)) as [data | error]; [discriminate |].
  destruct (Gen1.client_error error); [discriminate |].
  destruct (Z.ltb_spec attempt (Gen1.retries this)); [lia | reflexivity].
Qed.

(** A retryable failure with turns left: wait, then go on. *)
Lemma gen1_attempts_retry (remaining : nat) (attempt : Z) (last : option thrown) :
  Gen1.retryable (net request_url attempt) = true ->
  attempt < Gen1.retries this ->
  exists error,
    Gen1.try_block (net request_url attempt) = Throws error /\
    Gen1.attempts this net request_url (S remaining) attempt last
    = (Fetch request_url :: Sleep (1000 * 2 ^ attempt)
         :: fst (Gen1.attempts this net request_url remaining (attempt + 1) (Some error)),
       snd (Gen1.attempts this net request_url remaining (attempt + 1) (Some error))).
Proof.
  unfold Gen1.retryable. cbn [Gen1.attempts]. intros Hretry Hmore.
  destruct (Gen1.try_block (net request_url attempt)) as [data | error]; [discriminate |].
  exists error. split; [reflexivity |].
  destruct (Gen1.client_error error); [discriminate |].
  destruct (Z.ltb_spec attempt (Gen1.retries this)); [| lia].
  destruct (Gen1.attempts this net request_url remaining (attempt + 1) (Some error)).
  cbn [fst snd app]. now rewrite (Z.mul_comm 1000).
Qed.

Lemma gen1_attempts_backoff (failures : nat) :
  forall (attempt : Z) (last : option thrown),
    attempt + Z.of_nat failures <= Gen1.retries this ->
    (forall n, attempt <= n < attempt + Z.of_nat failures ->
               Gen1.retryable (net request_url n) = true) ->
    attempt + Z.of_nat failures = Gen1.retries this
    \/ Gen1.retryable (net request_url (attempt + Z.of_nat failures)) = false ->
    Gen1.attempts this net request_url
      (Z.to_nat (Gen1.retries this + 1 - attempt)) attempt last
    = (backoff request_url attempt failures,
       Gen1.try_block (net request_url (attempt + Z.of_nat failures))).
Proof.
  induction failures as [| k IH]; intros attempt last Hle Hfail Hend.
  - rewrite Z.add_0_r in *. simpl backoff.
    destruct (Gen1.retryable (net request_url attempt)) eqn:Hretry.
    + destruct Hend as [Hend | Hend]; [| discriminate].
      replace (Z.to_nat (Gen1.retries this + 1 - attempt)) with 1%nat by lia.
      apply gen1_attempts_exhausted; [assumption | lia].
    + replace (Z.to_nat (Gen1.retries this + 1 - attempt))
        with (S (Z.to_nat (Gen1.retries this - attempt))) by lia.
      now apply gen1_attempts_terminal.
  - replace (Z.to_nat (Gen1.retries this + 1 - attempt))
      with (S (Z.to_nat (Gen1.retries this + 1 - (attempt + 1)))) by lia.
    destruct (gen1_attempts_retry (Z.to_nat (Gen1.retries this + 1 - (attempt + 1)))
                attempt last) as (error & _ & ->); [apply Hfail; lia | lia |].
    rewrite (IH (attempt + 1) (Some error)).
    + cbn [backoff fst snd].
      now replace (attempt + Z.of_nat (S k)) with (attempt + 1 + Z.of_nat k) by lia.
    + lia.
    + intros n Hn. apply Hfail. lia.
    + replace (attempt + 1 + Z.of_nat k) with (attempt + Z.of_nat (S k)) by lia.
      exact Hend.
Qed.

End Gen1_request.

(** C7.  After every retryable failure at attempt [n] below the retry
    count, the first-generation executor waits [2^n] seconds and moves to
    attempt [n + 1]; nothing is waited for after the last attempt.  When the
    first [failures] attempts fail retryably and the next one is terminal
    (a success, a rethrown client error, or the attempt that exhausts the
    retries), the requests and waits are exactly those of [backoff], and the
    call settles to what that last attempt gave. *)
Theorem gen1_request_backoff (this : Gen1.ShotAPI) (net : server)
    (endpoint : string) (params : URLSearchParams.t) (failures : nat) :
  let request_url :=
    Gen1.baseUrl this ++ endpoint ++ "?" ++ URLSearchParams.toString params in
  Z.of_nat failures <= Gen1.retries this ->
  (forall n, 0 <= n < Z.of_nat failures ->
             Gen1.retryable (net request_url n) = true) ->
  Z.of_nat failures = Gen1.retries this
  \/ Gen1.retryable (net request_url (Z.of_nat failures)) = false ->
  Gen1.request this net endpoint params
  = (backoff request_url 0 failures,
     Gen1.try_block (net request_url (Z.of_nat failures))).
Proof.
  intros request_url Hle Hfail Hend. unfold Gen1.request. fold request_url.
  replace (Z.to_nat (Gen1.retries this + 1)) with (Z.to_nat (Gen1.retries this + 1 - 0))
    by (f_equal; lia).
  now rewrite (gen1_attempts_backoff this net request_url failures 0 None).
Qed.

(** With [retries = 2], a 503, a 503 and a 200 give the payload of the 200
    after waits of one second and two seconds. *)
Lemma gen1_request_backoff_witness :
  Gen1.request Scenario.v1 Scenario.busy_twice Scenario.endpoint Scenario.example_params
  = ([Fetch Scenario.example_request; Sleep 1000;
      Fetch Scenario.example_request; Sleep 2000;
      Fetch Scenario.example_request],
     Returns (Scenario.shot "capture")).
Proof.
  apply (gen1_request_backoff Scenario.v1 Scenario.busy_twice Scenario.endpoint
           Scenario.example_params 2).
  - simpl. lia.
  - intros n Hn. assert (n = 0 \/ n = 1) as [-> | ->] by (simpl in Hn; lia); reflexivity.
  - left. reflexivity.
Defined.

(** The waits of a schedule, in order: one second, then twice the wait
    before. *)
Lemma backoff_waits (request_url : string) (failures : nat) (n : Z) :
  filter (fun e => match e with Sleep _ => true | Fetch _ => false end)
         (backoff request_url n failures)
  = map (fun k => Sleep (1000 * 2 ^ (n + Z.of_nat k))) (seq 0 failures).
Proof.
  revert n. induction failures as [| k IH]; intros n; [reflexivity |].
  cbn [backoff filter seq map]. rewrite IH, <- seq_shift, map_map.
  rewrite Z.add_0_r. f_equal. apply map_ext. intros i. do 3 f_equal. lia.
Qed.

(** A schedule ends with a request, never with a wait. *)
Lemma backoff_ends_with_fetch (request_url : string) (failures : nat) (n : Z) :
  last (backoff request_url n failures) (Sleep 0) = Fetch request_url.
Proof.
  revert n. induction failures as [| k IH]; intros n; [reflexivity |].
  cbn [backoff]. specialize (IH (n + 1)).
  destruct (backoff request_url (n + 1) k) eqn:E; [destruct k; discriminate |].
  exact IH.
Qed.

(** What the specification calls retryable is retryable: a rejected fetch
    (connection failure, timeout) and a 5xx answer. *)
Lemma gen1_network_failure_retryable (name msg : string) :
  Gen1.retryable (Throws (JsError name msg)) = true.
Proof. reflexivity. Qed.

Lemma gen1_server_error_retryable (response : Response) :
  500 <= status response ->
  (forall e, body response <> Throws (Exception e)) ->
  Gen1.retryable (Returns response) = true.
Proof.
  intros Hstatus Hbody. unfold Gen1.retryable, Gen1.try_block, bind.
  destruct (body response) as [data | [e | name msg |]] eqn:E;
    try reflexivity; [| now destruct (Hbody e)].
  unfold ok. destruct (Z.leb_spec (status response) 299); [lia |].
  rewrite andb_false_r. cbn [negb].
  destruct data; cbn [Gen1.client_error statusCode negb]; try reflexivity;
    destruct (Z.ltb_spec (status response) 500); try lia;
    now rewrite andb_false_r.
Qed.

(** ** Client errors and bodies that are not JSON *)

(** C2.  The first generation parses the body before it looks at the
    status, so a 404 whose body is not JSON lands in the [catch] clause as a
    SyntaxError, which is not rethrown: with [retries = 2] the request is
    sent three times, with waits of one and two seconds, where the
    specification wants one attempt and no wait. *)
Theorem gen1_retries_client_error_without_json :
  Gen1.screenshot Scenario.v1 Scenario.not_found_page (only_url Scenario.example_com)
  = ([Fetch Scenario.example_request; Sleep 1000;
      Fetch Scenario.example_request; Sleep 2000;
      Fetch Scenario.example_request],
     Throws (JsError "SyntaxError" "Unexpected token < in JSON at position 0")).
Proof. reflexivity. Qed.

(** The same happens for a 4xx whose body is the JSON value [null]. *)
Lemma gen1_retries_client_error_null_body :
  fst (Gen1.screenshot Scenario.v1
         (fun _ _ => Scenario.respond 400 "Bad Request" (Returns JNull))
         (only_url Scenario.example_com))
  = [Fetch Scenario.example_request; Sleep 1000;
     Fetch Scenario.example_request; Sleep 2000;
     Fetch Scenario.example_request].
Proof. reflexivity. Qed.

(** What the first generation does keep: a 4xx whose body parses to
    something other than [null] ends the loop at once. *)
Lemma gen1_client_error_with_json_body (this : Gen1.ShotAPI) (net : server)
    (request_url : string) (remaining : nat) (attempt : Z) (last : option thrown)
    (response : Response) (data : json) :
  net request_url attempt = Returns response ->
  400 <= status response < 500 ->
  body response = Returns data ->
  data <> JNull ->
  exists e,
    statusCode e = Some (status response) /\
    Gen1.attempts this net request_url (S remaining) attempt last
    = ([Fetch request_url], Throws (Exception e)).
Proof.
  intros Hnet Hstatus Hbody Hdata.
  assert (Hok : ok response = false).
  { unfold ok. destruct (Z.leb_spec (status response) 299); [lia |].
    apply andb_false_r. }
  assert (Hclient : negb (status response =? 0) && (status response <? 500) = true).
  { destruct (Z.eqb_spec (status response) 0); [lia |].
    destruct (Z.ltb_spec (status response) 500); [reflexivity | lia]. }
  cbn [Gen1.attempts]. rewrite Hnet. unfold Gen1.try_block, bind.
  rewrite Hbody, Hok. cbn [negb].
  destruct data as [| text | error code details payload]; [congruence | |];
    cbn [Gen1.client_error statusCode]; rewrite Hclient;
    eexists; (split; [| reflexivity]); reflexivity.
Qed.

(** The second generation looks at the status first: a 4xx is raised on
    the attempt that saw it, whatever the body. *)
Lemma gen2_client_error_not_retried (this : Gen2.ShotAPI) (net : server)
    (request_url : string) (remaining : nat) (attempt : Z)
    (last : option ShotAPIException) (response : Response) :
  net request_url attempt = Returns response ->
  400 <= status response < 500 ->
  Gen2.attempts this net request_url (S remaining) attempt last
  = ([Fetch request_url], Throws (Exception (Gen2.http_error response))).
Proof.
  intros Hnet Hstatus. cbn [Gen2.attempts]. rewrite Hnet. unfold Gen2.attempt_once.
  assert (Hok : ok response = false).
  { unfold ok. destruct (Z.leb_spec (status response) 299); [lia |].
    apply andb_false_r. }
  rewrite Hok. cbn [negb].
  destruct (Z.leb_spec 400 (status response)); [| lia].
  destruct (Z.ltb_spec (status response) 500); [reflexivity | lia].
Qed.

(** C4.  In the first generation a response that is not ok and whose body
    is not JSON never reaches the code that builds a [ShotAPIException]:
    the error of [response.json()] is recorded as the last error and is what
    the caller gets. *)
Theorem gen1_propagates_parse_error :
  Gen1.screenshot Scenario.v1_no_retry Scenario.broken_gateway
    (only_url Scenario.example_com)
  = ([Fetch Scenario.example_request],
     Throws (JsError "SyntaxError" "Unexpected token < in JSON at position 0")).
Proof. reflexivity. Qed.

(** The first generation hands over the parse error of any response, at
    any attempt that is the last one. *)
Lemma gen1_parse_error_is_last_error (this : Gen1.ShotAPI) (net : server)
    (request_url : string) (attempt : Z) (last : option thrown)
    (response : Response) (name msg : string) :
  net request_url attempt = Returns response ->
  body response = Throws (JsError name msg) ->
  snd (Gen1.attempts this net request_url 1 attempt last) = Throws (JsError name msg).
Proof.
  intros Hnet Hbody. cbn [Gen1.attempts]. rewrite Hnet.
  unfold Gen1.try_block, bind. rewrite Hbody. reflexivity.
Qed.

(** The second generation synthesises the message from the status line. *)
Lemma gen2_generic_error_for_unparsed_body (this : Gen2.ShotAPI) (response : Response)
    (e : thrown) :
  ok response = false ->
  body response = Throws e ->
  let generic :=
    mkException ("HTTP " ++ toString (int (status response)) ++ ": " ++ statusText response)
                (Some "HTTP_ERROR") None (Some (status response)) in
  Gen2.attempt_once this (Returns response) = Gen2.Raise (Exception generic)
  \/ Gen2.attempt_once this (Returns response) = Gen2.Retry generic.
Proof.
  intros Hok Hbody generic. unfold Gen2.attempt_once, Gen2.http_error.
  rewrite Hok, Hbody. cbn [negb]. fold generic.
  destruct ((400 <=? status response) && (status response <? 500)); [left | right];
    reflexivity.
Qed.

Lemma gen2_synthesises_status_message :
  Gen2.request Scenario.v2 Scenario.not_found_page Scenario.endpoint Scenario.example_params
  = ([Fetch Scenario.example_request],
     Throws (Exception (mkException "HTTP 404: Not Found" (Some "HTTP_ERROR") None
                                    (Some 404)))).
Proof. reflexivity. Qed.

(** ** Construction *)

(** C9.  [retries] is defaulted with [??], [timeout] and [baseUrl] with
    [||].  Every configured retry count is kept, zero included, and only a
    missing one becomes 2; with [retries: 0] the executor sends the request
    once and never waits.  A configured timeout or base url is kept when it
    is truthy, while [timeout: 0] and an empty [baseUrl] give way, like
    missing ones, to 30000 and the production URL. *)
Theorem gen1_constructor_defaults (config : ShotAPIConfig) :
  nonempty (config_apiKey config) = true ->
  exists this,
    Gen1.constructor config = Returns this /\
    (forall r, config_retries config = Some r -> Gen1.retries this = r) /\
    (config_retries config = None -> Gen1.retries this = 2) /\
    (config_retries config = Some 0 ->
       forall net endpoint params,
         fst (Gen1.request this net endpoint params)
         = [Fetch (Gen1.baseUrl this ++ endpoint ++ "?" ++ URLSearchParams.toString params)]) /\
    (forall t, config_timeout config = Some t -> t <> 0 -> Gen1.timeout this = t) /\
    (config_timeout config = Some 0 \/ config_timeout config = None ->
       Gen1.timeout this = 30000) /\
    (forall b, config_baseUrl config = Some b -> nonempty b = true ->
               Gen1.baseUrl this = b) /\
    (config_baseUrl config = Some EmptyString \/ config_baseUrl config = None ->
       Gen1.baseUrl this = "https://shotapi.dev").
Proof.
  intros Hkey. unfold Gen1.constructor. rewrite Hkey. cbn [negb].
  eexists. split; [reflexivity |]. cbn [Gen1.retries Gen1.timeout Gen1.baseUrl].
  split; [| split; [| split; [| split; [| split; [| split]]]]].
  - now intros r ->.
  - now intros ->.
  - intros Hzero net endpoint params. unfold Gen1.request.
    cbn [Gen1.retries Gen1.baseUrl]. rewrite Hzero.
    change (Z.to_nat (0 + 1)) with 1%nat. cbn [Gen1.attempts].
    destruct (Gen1.try_block _) as [data | error]; [reflexivity |].
    destruct (Gen1.client_error error); reflexivity.
  - intros t -> Ht. now destruct t.
  - now intros [-> | ->].
  - intros b -> Hb. now destruct b.
  - now intros [-> | ->].
Qed.

(** A configuration of falsy values next to one of truthy values: the zero
    retry count is kept and gives one attempt, the zero timeout and the
    empty base url are replaced; 3, 5000 and 'http://localhost:3000' are
    all kept. *)
Lemma gen1_constructor_defaults_witness :
  (exists this,
     Gen1.constructor (mkConfig "KEY" (Some EmptyString) (Some 0) (Some 0) None)
     = Returns this /\
     Gen1.retries this = 0 /\
     (forall net endpoint params,
        fst (Gen1.request this net endpoint params)
        = [Fetch (Gen1.baseUrl this ++ endpoint ++ "?" ++ URLSearchParams.toString params)]) /\
     Gen1.timeout this = 30000 /\
     Gen1.baseUrl this = "https://shotapi.dev")
  /\
  (exists this,
     Gen1.constructor
       (mkConfig "KEY" (Some "http://localhost:3000") (Some 5000) (Some 3) None)
     = Returns this /\
     Gen1.retries this = 3 /\
     Gen1.timeout this = 5000 /\
     Gen1.baseUrl this = "http://localhost:3000")
  /\
  (exists this,
     Gen1.constructor (mkConfig "KEY" None None None None) = Returns this /\
     Gen1.retries this = 2 /\
     Gen1.timeout this = 30000 /\
     Gen1.baseUrl this = "https://shotapi.dev").
Proof.
  split; [| split].
  - destruct (gen1_constructor_defaults
                (mkConfig "KEY" (Some EmptyString) (Some 0) (Some 0) None) eq_refl)
      as (this & Hnew & Hretries & _ & Honce & _ & Htimeout & _ & Hbase).
    exists this.
    repeat split; [exact Hnew | exact (Hretries 0 eq_refl) | exact (Honce eq_refl)
                   | exact (Htimeout (or_introl eq_refl))
                   | exact (Hbase (or_introl eq_refl))].
  - destruct (gen1_constructor_defaults
                (mkConfig "KEY" (Some "http://localhost:3000") (Some 5000) (Some 3) None)
                eq_refl)
      as (this & Hnew & Hretries & _ & _ & Htimeout & _ & Hbase & _).
    exists this.
    repeat split; [exact Hnew | exact (Hretries 3 eq_refl)
                   | apply (Htimeout 5000 eq_refl); discriminate
                   | exact (Hbase "http://localhost:3000" eq_refl eq_refl)].
  - destruct (gen1_constructor_defaults (mkConfig "KEY" None None None None) eq_refl)
      as (this & Hnew & _ & Hretries & _ & _ & Htimeout & _ & Hbase).
    exists this.
    repeat split; [exact Hnew | exact (Hretries eq_refl)
                   | exact (Htimeout (or_intror eq_refl))
                   | exact (Hbase (or_intror eq_refl))].
Defined.

(** ** Reading a parameter set *)

Section Params.

Import URLSearchParams.

Lemma named_apart (k name : string) (p : string * string) :
  String.eqb k name = false -> named name p = true -> named k p = false.
Proof.
  unfold named. intros Hk Hp. apply String.eqb_eq in Hp. rewrite Hp.
  now rewrite String.eqb_sym.
Qed.

Lemma find_filter_other (k name : string) (l : t) :
  String.eqb k name = false ->
  find (named k) (filter (fun q => negb (named name q)) l) = find (named k) l.
Proof.
  intros Hk. induction l as [| q rest IH]; [reflexivity |].
  cbn [filter find]. destruct (named name q) eqn:Hq; cbn [negb find].
  - now rewrite (named_apart k name q Hk Hq).
  - now rewrite IH.
Qed.

Lemma get_replace_other (k name value : string) (l : t) :
  String.eqb k name = false ->
  get k (replace name value l) = get k l.
Proof.
  intros Hk. unfold get. f_equal.
  induction l as [| p rest IH]; [reflexivity |].
  cbn [replace]. destruct (named name p) eqn:Hp.
  - cbn [find]. rewrite (named_apart k name p Hk Hp).
    rewrite (named_apart k name (name, value) Hk)
      by (unfold named; apply String.eqb_refl).
    now apply find_filter_other.
  - cbn [find]. now rewrite IH.
Qed.

Lemma get_replace_same (name value : string) (l : t) :
  has name l = true ->
  get name (replace name value l) = Some value.
Proof.
  unfold get, has. induction l as [| p rest IH]; [discriminate |].
  cbn [existsb replace]. destruct (named name p) eqn:Hp.
  - intros _. cbn [find]. unfold named at 1. cbn [fst].
    now rewrite String.eqb_refl.
  - cbn [orb find]. rewrite Hp. exact IH.
Qed.

Lemma get_append (k name value : string) (l : t) :
  has name l = false ->
  get k (l ++ [(name, value)])%list
  = if String.eqb k name then Some value else get k l.
Proof.
  unfold get, has. induction l as [| p rest IH].
  - intros _. cbn [app find]. unfold named. cbn [fst].
    rewrite (String.eqb_sym name k). now destruct (String.eqb k name).
  - cbn [existsb app find]. intros Hno. apply orb_false_elim in Hno as [Hp Hrest].
    destruct (named k p) eqn:Hkp.
    + destruct (String.eqb_spec k name) as [-> |]; [congruence | reflexivity].
    + now apply IH.
Qed.

(** [get] after [set]. *)
Lemma get_set (k name value : string) (l : t) :
  get k (set name value l) = if String.eqb k name then Some value else get k l.
Proof.
  unfold set. destruct (has name l) eqn:Hhas.
  - destruct (String.eqb_spec k name) as [-> | Hk].
    + now apply get_replace_same.
    + apply get_replace_other. now apply String.eqb_neq.
  - now apply get_append.
Qed.

Lemma get_set_number (k name : string) (v : option number) (l : t) :
  String.eqb k name = false -> get k (set_number name v l) = get k l.
Proof.
  intros Hk. unfold set_number. destruct v as [n |]; [| reflexivity].
  destruct (truthy n); [| reflexivity]. now rewrite get_set, Hk.
Qed.

Lemma get_set_string (k name : string) (v : option string) (l : t) :
  String.eqb k name = false -> get k (set_string name v l) = get k l.
Proof.
  intros Hk. unfold set_string. destruct v as [s |]; [| reflexivity].
  destruct (nonempty s); [| reflexivity]. now rewrite get_set, Hk.
Qed.

Lemma get_set_flag (k name : string) (v : option bool) (l : t) :
  String.eqb k name = false -> get k (set_flag name v l) = get k l.
Proof.
  intros Hk. unfold set_flag. destruct v as [[|] |]; try reflexivity.
  now rewrite get_set, Hk.
Qed.

Lemma get_set_format (k : string) (v : option ImageFormat) (l : t) :
  String.eqb k "format" = false -> get k (set_format v l) = get k l.
Proof.
  intros Hk. unfold set_format. destruct v as [f |]; [| reflexivity].
  now rewrite get_set, Hk.
Qed.

End Params.

(** Skips every emission under another name. *)
Ltac skip_other_names :=
  repeat first
    [ rewrite get_set_number by reflexivity
    | rewrite get_set_string by reflexivity
    | rewrite get_set_flag by reflexivity
    | rewrite get_set_format by reflexivity ].

(** ** The parameter builder *)

(** C1.  In the first generation the explicit [scale] is emitted after the
    preset branch and under the same name, so it replaces the scale of the
    preset: for 'iphone-14-pro' with an explicit scale of 2 the parameters
    carry [scale=2], not [scale=3] (width and height do come from the
    preset). *)
Theorem gen1_explicit_scale_replaces_preset_scale :
  Gen1.buildParams Scenario.v1 (Scenario.preset_request "iphone-14-pro" None None)
  = Returns [("url", Scenario.example_com); ("api_key", "KEY"); ("width", "393");
             ("height", "852"); ("mobile", "true"); ("scale", "3")]
  /\
  Gen1.buildParams Scenario.v1
    (Scenario.preset_request "iphone-14-pro" (Some (int 2)) None)
  = Returns [("url", Scenario.example_com); ("api_key", "KEY"); ("width", "393");
             ("height", "852"); ("mobile", "true"); ("scale", "2")].
Proof. split; reflexivity. Qed.

(** Likewise an explicit [mobile: true] is emitted for a preset that is not
    mobile. *)
Lemma gen1_explicit_mobile_added_to_preset :
  Gen1.buildParams Scenario.v1 (Scenario.preset_request "desktop" None (Some true))
  = Returns [("url", Scenario.example_com); ("api_key", "KEY"); ("width", "1920");
             ("height", "1080"); ("mobile", "true")].
Proof. reflexivity. Qed.

(** Explicit width and height are ignored by both generations once a
    device is given. *)
Lemma gen1_device_ignores_width_height (this : Gen1.ShotAPI) (o : ScreenshotOptions)
    (w h : option number) :
  device_given o = true ->
  Gen1.buildParams this (with_viewport o w h (scale o) (mobile o))
  = Gen1.buildParams this o.
Proof.
  unfold device_given, Gen1.buildParams, handle_device. cbn [with_viewport device
    url fullPage format quality scale delay waitForSelector darkMode mobile selector
    css js blockAds hideCookieBanners thumbnailWidth].
  destruct (device o) as [[| c d] |]; [discriminate | reflexivity | discriminate].
Qed.

(** The second generation reads none of the four explicit fields once a
    device is given: the preset wins unconditionally. *)
Lemma gen2_preset_wins (this : Gen2.ShotAPI) (o : ScreenshotOptions)
    (w h s : option number) (m : option bool) :
  device_given o = true ->
  Gen2.buildParams this (with_viewport o w h s m) = Gen2.buildParams this o.
Proof.
  intros Hdevice. unfold Gen2.buildParams.
  assert (Hsame : device_given (with_viewport o w h s m) = true) by exact Hdevice.
  rewrite Hsame, Hdevice. revert Hdevice. unfold device_given, handle_device.
  cbn [with_viewport device url fullPage format quality scale delay waitForSelector
       darkMode mobile selector css js blockAds hideCookieBanners thumbnailWidth negb].
  destruct (device o) as [[| c d] |]; [discriminate | reflexivity | discriminate].
Qed.

Lemma gen2_preset_example (s : option number) (m : option bool) :
  Gen2.buildParams Scenario.v2 (Scenario.preset_request "iphone-14-pro" s m)
  = Returns [("url", Scenario.example_com); ("api_key", "KEY"); ("width", "393");
             ("height", "852"); ("mobile", "true"); ("scale", "3")].
Proof.
  exact (gen2_preset_wins Scenario.v2
           (Scenario.preset_request "iphone-14-pro" None None)
           (Some (int 999)) None s m eq_refl).
Qed.

(** C10, as amended.  When [device] is a string that is not empty and
    [DEVICE_PRESETS[device]] is undefined (the name is neither a preset nor
    a property inherited from [Object.prototype]), the first generation
    builds the parameters without width and height (the preset branch emits
    nothing and the explicit dimensions sit in the skipped [else] branch);
    scale and mobile are there exactly when the explicit options emit
    them. *)
Theorem gen1_unknown_device_no_viewport (this : Gen1.ShotAPI) (o : ScreenshotOptions)
    (d : string) :
  device o = Some d ->
  nonempty d = true ->
  lookup d = Undefined ->
  exists params,
    Gen1.buildParams this o = Returns params /\
    URLSearchParams.get "width" params = None /\
    URLSearchParams.get "height" params = None /\
    URLSearchParams.get "scale" params = explicit_scale o /\
    URLSearchParams.get "mobile" params = explicit_mobile o.
Proof.
  intros Hdevice Hset Hlookup. unfold Gen1.buildParams, handle_device.
  rewrite Hdevice. destruct d as [| c d]; [discriminate |]. rewrite Hlookup.
  cbn [bind]. eexists. split; [reflexivity |].
  repeat split; skip_other_names.
  - reflexivity.
  - reflexivity.
  - unfold explicit_scale, set_number at 1.
    destruct (scale o) as [n |]; [destruct (truthy n) |];
      [now rewrite get_set | |]; skip_other_names; reflexivity.
  - unfold explicit_mobile, set_flag at 1.
    destruct (mobile o) as [[|] |]; [now rewrite get_set | |];
      skip_other_names; reflexivity.
Qed.

Lemma gen1_unknown_device_no_viewport_witness :
  exists params,
    Gen1.buildParams Scenario.v1
      (Scenario.preset_request "nokia-3310" (Some (int 2)) (Some true))
    = Returns params /\
    URLSearchParams.get "width" params = None /\
    URLSearchParams.get "height" params = None /\
    URLSearchParams.get "scale" params = Some "2" /\
    URLSearchParams.get "mobile" params = Some "true".
Proof.
  exact (gen1_unknown_device_no_viewport Scenario.v1
           (Scenario.preset_request "nokia-3310" (Some (int 2)) (Some true))
           "nokia-3310" eq_refl eq_refl eq_refl).
Defined.

(** C10 as it was worded, for every device that is not a name of the preset
    table, fails on the code.  The name 'constructor' is not in the table,
    yet no parameters are built for it: [DEVICE_PRESETS['constructor']] is
    the inherited [Object] function, which passes [if (preset)], and reading
    its width throws.  And the empty name, which is not in the table either,
    is falsy: the [else] branch runs and the explicit width 999 is
    emitted. *)
Lemma gen1_unknown_device_counterexample :
  ~ (forall (o : ScreenshotOptions) (d : string),
       device o = Some d -> nonempty d = true -> DEVICE_PRESETS d = None ->
       exists params,
         Gen1.buildParams Scenario.v1 o = Returns params /\
         URLSearchParams.get "width" params = None /\
         URLSearchParams.get "height" params = None)
  /\
  ~ (forall (o : ScreenshotOptions) (d : string) (params : URLSearchParams.t),
       device o = Some d -> DEVICE_PRESETS d = None ->
       Gen1.buildParams Scenario.v1 o = Returns params ->
       URLSearchParams.get "width" params = None).
Proof.
  split.
  - intros Hclaim.
    destruct (Hclaim (Scenario.preset_request "constructor" None None) "constructor"
                eq_refl eq_refl eq_refl) as (params & Hbuilt & _).
    discriminate Hbuilt.
  - intros Hclaim.
    specialize (Hclaim (Scenario.preset_request EmptyString None None) EmptyString
                  [("url", Scenario.example_com); ("api_key", "KEY"); ("width", "999")]
                  eq_refl eq_refl eq_refl).
    discriminate Hclaim.
Qed.

(** The two inputs of the counterexample, evaluated. *)
Lemma gen1_empty_device_is_no_device :
  Gen1.buildParams Scenario.v1 (Scenario.preset_request EmptyString None None)
  = Returns [("url", Scenario.example_com); ("api_key", "KEY"); ("width", "999")].
Proof. reflexivity. Qed.

Lemma gen1_inherited_device_throws :
  Gen1.buildParams Scenario.v1 (Scenario.preset_request "constructor" None None)
  = Throws (JsError "TypeError" "Cannot read properties of undefined (reading 'toString')").
Proof. reflexivity. Qed.

(** ** Validation *)

(** C5.  The first generation checks that the url is not empty and nothing
    else: a quality of 101 or of -5 goes out on the wire, and a quality of 0
    is dropped from the parameters without an error; each time the request
    is sent. *)
Theorem gen1_quality_not_validated :
  Gen1.screenshot Scenario.v1 Scenario.echo (Scenario.with_quality 101)
  = ([Fetch (Scenario.example_request ++ "&quality=101")],
     Returns (Scenario.shot (Scenario.example_request ++ "&quality=101")))
  /\
  Gen1.screenshot Scenario.v1 Scenario.echo (Scenario.with_quality (-5))
  = ([Fetch (Scenario.example_request ++ "&quality=-5")],
     Returns (Scenario.shot (Scenario.example_request ++ "&quality=-5")))
  /\
  Gen1.screenshot Scenario.v1 Scenario.echo (Scenario.with_quality 0)
  = ([Fetch Scenario.example_request], Returns (Scenario.shot Scenario.example_request)).
Proof. repeat split; reflexivity. Qed.

(** C6.  Nor does the first generation parse the url: 'ftp://x' and
    'not a url' are sent to the service like any other target. *)
Theorem gen1_url_not_validated :
  Gen1.screenshot Scenario.v1 Scenario.echo (only_url "ftp://x")
  = ([Fetch "https://shotapi.dev/api/v1/screenshot?url=ftp%3A%2F%2Fx&api_key=KEY"],
     Returns (Scenario.shot
                "https://shotapi.dev/api/v1/screenshot?url=ftp%3A%2F%2Fx&api_key=KEY"))
  /\
  Gen1.screenshot Scenario.v1 Scenario.echo (only_url "not a url")
  = ([Fetch "https://shotapi.dev/api/v1/screenshot?url=not+a+url&api_key=KEY"],
     Returns (Scenario.shot
                "https://shotapi.dev/api/v1/screenshot?url=not+a+url&api_key=KEY")).
Proof. split; reflexivity. Qed.


Section Gen2_validation.

Variable protocol : string -> option string.
Variable this : Gen2.ShotAPI.
Variable net : server.

(** The second generation rejects a url whose protocol is not http or
    https, before any request. *)
Lemma gen2_invalid_url (o : ScreenshotOptions) :
  nonempty (url o) = true ->
  Gen2.isValidUrl protocol (url o) = false ->
  Gen2.screenshot protocol this net o
  = ([], Throws (Exception (mkException
           ("Invalid URL: " ++ url o ++ ". URL must start with http:// or https://")
           (Some "INVALID_URL") None None))).
Proof.
  intros Hurl Hinvalid. unfold Gen2.screenshot. now rewrite Hurl, Hinvalid.
Qed.

Lemma gen2_not_http_is_invalid (u : string) :
  (forall parsed, protocol u = Some parsed -> parsed <> "http:" /\ parsed <> "https:") ->
  Gen2.isValidUrl protocol u = false.
Proof.
  intros Hscheme. unfold Gen2.isValidUrl.
  destruct (protocol u) as [parsed |]; [| reflexivity].
  destruct (Hscheme parsed eq_refl) as [Hhttp Hhttps].
  apply String.eqb_neq in Hhttp, Hhttps. now rewrite Hhttp, Hhttps.
Qed.

(** With a valid url, a quality below 1 or above 100 is rejected before
    any request. *)
Lemma gen2_quality_out_of_range (o : ScreenshotOptions) (q : number) :
  nonempty (url o) = true ->
  Gen2.isValidUrl protocol (url o) = true ->
  quality o = Some q ->
  thousandths q < 1000 \/ 100000 < thousandths q ->
  Gen2.screenshot protocol this net o
  = ([], Throws (Exception (mkException "Quality must be between 1 and 100"
                                        (Some "INVALID_QUALITY") None None))).
Proof.
  intros Hurl Hvalid Hq Hrange. unfold Gen2.screenshot.
  rewrite Hurl, Hvalid. cbn [negb].
  replace (Gen2.out_of_range (quality o) 1 100) with true; [reflexivity |].
  rewrite Hq. unfold Gen2.out_of_range, number_ltb, int. cbn [thousandths].
  symmetry. apply orb_true_iff. destruct Hrange; [left | right]; apply Z.ltb_lt; lia.
Qed.

(** A quality from 1 to 100 passes the quality check. *)
Lemma gen2_quality_in_range (o : ScreenshotOptions) (q : number) :
  quality o = Some q ->
  1000 <= thousandths q <= 100000 ->
  Gen2.out_of_range (quality o) 1 100 = false.
Proof.
  intros -> Hrange. unfold Gen2.out_of_range, number_ltb, int. cbn [thousandths].
  apply orb_false_iff. split; apply Z.ltb_ge; lia.
Qed.

(** The url is looked at before the quality. *)
Lemma gen2_url_checked_first (o : ScreenshotOptions) :
  url o = EmptyString ->
  Gen2.screenshot protocol this net o
  = ([], Throws (Exception (mkException "URL is required" (Some "MISSING_URL")
                                        None None))).
Proof. intros Hurl. unfold Gen2.screenshot. now rewrite Hurl. Qed.

End Gen2_validation.

(** ** Batches *)

Lemma first_rejection_none {A : Type} (ps : list (settled A)) :
  (forall p, In p ps -> exists a, snd p = Returns a) ->
  first_rejection ps = None /\ map Returns (fulfilled ps) = map snd ps.
Proof.
  induction ps as [| [t r] ps IH]; intros Hall; [now split |].
  destruct (Hall (t, r) (or_introl eq_refl)) as [a Ha]. cbn [snd] in Ha. subst r.
  destruct IH as [Hnone Hvalues]; [intros p Hp; apply Hall; now right |].
  cbn [first_rejection fulfilled map snd]. now rewrite Hvalues.
Qed.

(** When every promise is fulfilled, [Promise.all] gives the values in the
    order of the promises, whenever each of them settled. *)
Lemma Promise_all_in_order {A : Type} (clock : string -> nat)
    (call : string -> outcome A) (targets : list string) :
  (forall u, In u targets -> exists a, call u = Returns a) ->
  exists values,
    Promise_all (map (fun u => (clock u, call u)) targets) = Returns values /\
    map Returns values = map call targets.
Proof.
  intros Hall. unfold Promise_all.
  destruct (first_rejection_none (map (fun u => (clock u, call u)) targets)) as [-> Hvalues].
  - intros p Hp. apply in_map_iff in Hp as (u & <- & Hu). exact (Hall u Hu).
  - eexists. split; [reflexivity |]. now rewrite Hvalues, map_map.
Qed.

Lemma in_order_nth {A : Type} (call : string -> outcome A) (targets : list string)
    (values : list A) :
  map Returns values = map call targets ->
  List.length values = List.length targets /\
  forall i u, nth_error targets i = Some u ->
              exists a, nth_error values i = Some a /\ call u = Returns a.
Proof.
  intros Hmap. split.
  - now rewrite <- (length_map Returns values), Hmap, length_map.
  - intros i u Hu. apply (map_nth_error call) in Hu. rewrite <- Hmap in Hu.
    rewrite nth_error_map in Hu.
    destruct (nth_error values i) as [a |]; [| discriminate].
    exists a. split; [reflexivity |]. cbn in Hu. congruence.
Qed.

(** C3.  The first generation has no concurrency ceiling: the constructor
    does not read [maxConcurrent], and [batch] starts the six calls of six
    urls in one round, with no pause, where the specification wants three
    rounds of two under a ceiling of two. *)
Theorem gen1_batch_single_round :
  exists this,
    Gen1.constructor (mkConfig "KEY" None None None (Some 2)) = Returns this /\
    forall net finish options,
      fst (Gen1.batch this net finish Scenario.six options) = [Round Scenario.six].
Proof. eexists. split; reflexivity. Qed.

(** C8.  When every call of a batch succeeds, the first generation returns
    as many responses as there are urls, the one at index [i] being the
    response to the call for the url at index [i], whenever the calls
    settle. *)
Theorem gen1_batch_order (this : Gen1.ShotAPI) (net : server) (finish : string -> nat)
    (urls : list string) (options : ScreenshotOptions) :
  (forall u, In u urls ->
     exists data, snd (Gen1.screenshot this net (with_url options u)) = Returns data) ->
  exists responses,
    snd (Gen1.batch this net finish urls options) = Returns responses /\
    List.length responses = List.length urls /\
    forall i u, nth_error urls i = Some u ->
      exists data,
        nth_error responses i = Some data /\
        snd (Gen1.screenshot this net (with_url options u)) = Returns data.
Proof.
  intros Hall. unfold Gen1.batch. cbn [snd].
  destruct (Promise_all_in_order finish
              (fun u => snd (Gen1.screenshot this net (with_url options u))) urls Hall)
    as (responses & -> & Hmap).
  exists responses. split; [reflexivity |]. now apply in_order_nth.
Qed.

Lemma gen1_batch_order_witness :
  exists responses,
    snd (Gen1.batch Scenario.v1 Scenario.echo
           (fun u => if String.eqb u "a" then 9%nat else 0%nat)
           Scenario.six (only_url EmptyString))
    = Returns responses /\
    List.length responses = 6%nat /\
    forall i u, nth_error Scenario.six i = Some u ->
      exists data,
        nth_error responses i = Some data /\
        snd (Gen1.screenshot Scenario.v1 Scenario.echo (with_url (only_url EmptyString) u))
        = Returns data.
Proof.
  apply (gen1_batch_order Scenario.v1 Scenario.echo
           (fun u => if String.eqb u "a" then 9%nat else 0%nat)
           Scenario.six (only_url EmptyString)).
  intros u Hu. simpl in Hu.
  destruct Hu as [<- | [<- | [<- | [<- | [<- | [<- | []]]]]]]; eexists; reflexivity.
Defined.

(** *** The chunks of the second generation *)

Lemma Chunked_concat {A : Type} (size : nat) (l : list A) (cs : list (list A)) :
  Chunked size l cs -> List.concat cs = l.
Proof.
  induction 1 as [| l cs _ _ IH]; [reflexivity |].
  cbn [List.concat]. rewrite IH. apply firstn_skipn.
Qed.

Lemma Chunked_sizes {A : Type} (size : nat) (l : list A) (cs : list (list A)) :
  (1 <= size)%nat ->
  Chunked size l cs ->
  Forall (fun c => (1 <= List.length c <= size)%nat) cs.
Proof.
  intros Hsize. induction 1 as [| l cs Hl _ IH]; constructor; [| exact IH].
  rewrite length_firstn. destruct l; [congruence |]. cbn [List.length]. lia.
Qed.

Lemma slice_chunk {A : Type} (l : list A) (i m : Z) :
  0 <= i < Z.of_nat (List.length l) ->
  0 <= m ->
  slice l i (i + m) = firstn (Z.to_nat m) (skipn (Z.to_nat i) l).
Proof.
  intros Hi Hm. unfold slice, clamp.
  destruct (Z.ltb_spec i 0); [lia |].
  destruct (Z.ltb_spec (i + m) 0); [lia |].
  rewrite (Z.min_l i) by lia.
  destruct (Z.le_gt_cases (i + m) (Z.of_nat (List.length l))).
  - rewrite Z.min_l by lia. f_equal. lia.
  - rewrite Z.min_r by lia.
    rewrite !firstn_all2; [reflexivity | |]; rewrite length_skipn; lia.
Qed.

Section Gen2_batch.

Variable protocol : string -> option string.
Variable this : Gen2.ShotAPI.
Variable net : server.
Variable finish : string -> nat.
Variable urls : list string.
Variable options : ScreenshotOptions.

Let call (u : string) : outcome json :=
  snd (Gen2.screenshot protocol this net (with_url options u)).

Hypothesis ceiling : 1 <= Gen2.maxConcurrent this.

Lemma gen2_chunks_paced (fuel : nat) :
  forall (i : Z) (results : list json),
    0 <= i ->
    (List.length (skipn (Z.to_nat i) urls) < fuel)%nat ->
    (forall u, In u (skipn (Z.to_nat i) urls) -> exists data, call u = Returns data) ->
    exists cs responses,
      Gen2.chunks protocol this net finish urls options fuel i results
      = Some (paced cs, Returns (results ++ responses)%list) /\
      Chunked (Z.to_nat (Gen2.maxConcurrent this)) (skipn (Z.to_nat i) urls) cs /\
      map Returns responses = map call (skipn (Z.to_nat i) urls).
Proof.
  induction fuel as [| fuel IH]; intros i results Hi Hfuel Hall; [lia |].
  cbn [Gen2.chunks].
  destruct (Z.ltb_spec i (Z.of_nat (List.length urls))) as [Hin | Hout].
  - set (rest := skipn (Z.to_nat i) urls) in *.
    set (size := Z.to_nat (Gen2.maxConcurrent this)).
    rewrite slice_chunk by lia. fold rest size.
    assert (Hrest : rest <> []).
    { intros Hnil. apply (f_equal (@List.length string)) in Hnil.
      unfold rest in Hnil. rewrite length_skipn in Hnil. cbn in Hnil. lia. }
    assert (Hnext : skipn (Z.to_nat (i + Gen2.maxConcurrent this)) urls = skipn size rest).
    { unfold rest, size. rewrite skipn_skipn. f_equal. lia. }
    destruct (Promise_all_in_order finish call (firstn size rest))
      as (chunkResults & Hchunk & Hmap).
    { intros u Hu. apply Hall. rewrite <- (firstn_skipn size rest).
      apply in_or_app. now left. }
    unfold call in Hchunk. rewrite Hchunk.
    destruct (IH (i + Gen2.maxConcurrent this) (results ++ chunkResults)%list)
      as (cs & responses & Hloop & Hcs & Hresponses).
    + lia.
    + rewrite Hnext, length_skipn. unfold rest in *.
      assert (0 < List.length (skipn (Z.to_nat i) urls))%nat
        by (rewrite length_skipn; lia).
      assert (1 <= size)%nat by (unfold size; lia). lia.
    + intros u Hu. apply Hall. rewrite Hnext in Hu.
      rewrite <- (firstn_skipn size rest). apply in_or_app. now right.
    + rewrite Hloop. rewrite Hnext in Hcs, Hresponses.
      exists (firstn size rest :: cs), (chunkResults ++ responses)%list.
      split; [| split].
      * rewrite <- app_assoc. cbn [paced]. do 3 f_equal.
        destruct (Z.ltb_spec (i + Gen2.maxConcurrent this) (Z.of_nat (List.length urls)))
          as [Hmore | Hlast].
        -- inversion Hcs as [Hnil | l cs' Hl Hcs' Hskip]; [| reflexivity].
           apply (f_equal (@List.length string)) in Hnil.
           rewrite <- Hnext, length_skipn in Hnil. cbn in Hnil. lia.
        -- inversion Hcs as [Hnil | l cs' Hl Hcs' Hskip]; [reflexivity |].
           exfalso. apply Hl. apply length_zero_iff_nil.
           rewrite <- Hnext, length_skipn. lia.
      * now constructor.
      * rewrite map_app, Hmap, Hresponses, <- map_app. now rewrite firstn_skipn.
  - assert (Hnil : skipn (Z.to_nat i) urls = []) by (apply skipn_all2; lia).
    rewrite Hnil. exists [], []. rewrite app_nil_r.
    repeat split. constructor.
Qed.

(** With a ceiling of at least one and calls that all succeed, the
    second generation runs the batch chunk by chunk, pauses 100ms between
    two chunks, and returns the responses in the order of the urls. *)
Lemma gen2_batch_chunked :
  (forall u, In u urls -> exists data, call u = Returns data) ->
  exists cs responses,
    Gen2.batch protocol this net finish urls options (S (List.length urls))
    = Some (paced cs, Returns responses) /\
    Chunked (Z.to_nat (Gen2.maxConcurrent this)) urls cs /\
    map Returns responses = map call urls.
Proof.
  intros Hall. unfold Gen2.batch.
  destruct (gen2_chunks_paced (S (List.length urls)) 0 []) as (cs & responses & H);
    [lia | cbn; lia | exact Hall |].
  now exists cs, responses.
Qed.

End Gen2_batch.

(** Six urls under a ceiling of two: three rounds of two, two pauses. *)
Lemma gen2_batch_six :
  option_map fst
    (Gen2.batch (fun _ => Some "https:") Scenario.v2 Scenario.echo (fun _ => O)
       Scenario.six (only_url EmptyString) 7)
  = Some [Round ["a"; "b"]; Pause 100; Round ["c"; "d"]; Pause 100; Round ["e"; "f"]].
Proof. reflexivity. Qed.

(** A ceiling of zero never leaves the loop of the second generation: each
    turn starts an empty round and pauses. *)
Lemma gen2_batch_zero_ceiling (fuel : nat) :
  Gen2.batch (fun _ => Some "https:")
    (Gen2.mkClient "KEY" "https://shotapi.dev" 30000 2 0) Scenario.echo (fun _ => O)
    Scenario.six (only_url EmptyString) fuel
  = None.
Proof.
  unfold Gen2.batch. generalize (@nil json).
  induction fuel as [| fuel IH]; intros results; [reflexivity |].
  cbn [Gen2.chunks]. cbn [Gen2.maxConcurrent]. rewrite Z.add_0_r.
  change (slice Scenario.six 0 0) with (@nil string).
  change (0 <? Z.of_nat (List.length Scenario.six)) with true.
  cbn [map Promise_all first_rejection fulfilled]. now rewrite IH.
Qed.

(** * More of the client *)

(** ** What [buildParams] keeps *)

Section Params_shape.

Import URLSearchParams.

Lemma get_set_number_same (name : string) (v : option number) (l : t) :
  get name (set_number name v l) = later (emitted_number v) (get name l).
Proof.
  unfold set_number, emitted_number. destruct v as [n |]; [| reflexivity].
  destruct (truthy n); [| reflexivity]. now rewrite get_set, String.eqb_refl.
Qed.

Lemma get_set_string_same (name : string) (v : option string) (l : t) :
  get name (set_string name v l) = later (emitted_string v) (get name l).
Proof.
  unfold set_string, emitted_string. destruct v as [[| c s] |]; try reflexivity.
  cbn [nonempty later]. now rewrite get_set, String.eqb_refl.
Qed.

Lemma get_set_flag_same (name : string) (v : option bool) (l : t) :
  get name (set_flag name v l) = later (emitted_flag v) (get name l).
Proof.
  unfold set_flag, emitted_flag. destruct v as [[|] |]; try reflexivity.
  cbn [later]. now rewrite get_set, String.eqb_refl.
Qed.

(** The preset branch writes under four names only. *)
Lemma handle_device_other (o : ScreenshotOptions) (p p' : t) (k : string) :
  handle_device o p = Returns p' ->
  String.eqb k "width" = false -> String.eqb k "height" = false ->
  String.eqb k "mobile" = false -> String.eqb k "scale" = false ->
  get k p' = get k p.
Proof.
  intros Hd Hw Hh Hm Hs. unfold handle_device in Hd.
  destruct (device o) as [[| c d] |].
  - injection Hd as <-. now rewrite !get_set_number.
  - destruct (lookup (String c d)) as [preset | |]; [| discriminate |].
    + injection Hd as <-.
      destruct (negb _); [rewrite get_set, Hs |];
        (destruct (preset_mobile preset); [rewrite get_set, Hm |]);
        now rewrite !get_set, Hw, Hh.
    + now injection Hd as <-.
  - injection Hd as <-. now rewrite !get_set_number.
Qed.

(** [set] under a third name leaves the first two pairs where they are. *)
Lemma set_behind (name value : string) (p1 p2 : string * string) (l : t) :
  named name p1 = false -> named name p2 = false ->
  set name value (p1 :: p2 :: l) = p1 :: p2 :: set name value l.
Proof.
  intros H1 H2. unfold set, has. cbn [existsb]. rewrite H1, H2. cbn [orb].
  destruct (existsb (named name) l); [| reflexivity].
  cbn [replace]. now rewrite H1, H2.
Qed.

Lemma keys_replace (name value : string) (l : t) (k : string) :
  In k (map fst (replace name value l)) -> In k (map fst l).
Proof.
  induction l as [| p rest IH]; [trivial |].
  cbn [replace]. destruct (named name p) eqn:Hp; cbn [map In fst].
  - unfold named in Hp. apply String.eqb_eq in Hp.
    intros [<- | Hin]; [now left | right].
    apply in_map_iff in Hin as (q & <- & Hq). apply filter_In in Hq as [Hq _].
    now apply in_map.
  - intros [<- | Hin]; [now left | right; now apply IH].
Qed.

Lemma NoDup_filter_keys (f : string * string -> bool) (l : t) :
  NoDup (map fst l) -> NoDup (map fst (filter f l)).
Proof.
  induction l as [| q rest IH]; [trivial |].
  cbn [map filter]. intros Hnd. inversion Hnd as [| k ks Hfresh Hrest]. subst.
  destruct (f q); [| now apply IH].
  cbn [map]. constructor; [| now apply IH].
  intros Hin. apply Hfresh.
  apply in_map_iff in Hin as (r & Hr & Hin). apply filter_In in Hin as [Hin _].
  rewrite <- Hr. now apply in_map.
Qed.

Lemma NoDup_replace (name value : string) (l : t) :
  NoDup (map fst l) -> NoDup (map fst (replace name value l)).
Proof.
  induction l as [| p rest IH]; [trivial |].
  cbn [replace map]. intros Hnd. inversion Hnd as [| k ks Hfresh Hrest]. subst.
  destruct (named name p) eqn:Hp; cbn [map fst].
  - unfold named in Hp. apply String.eqb_eq in Hp. constructor.
    + intros Hin. apply Hfresh. rewrite Hp.
      apply in_map_iff in Hin as (q & Hq & Hin). apply filter_In in Hin as [Hin _].
      rewrite <- Hq. now apply in_map.
    + now apply NoDup_filter_keys.
  - constructor; [| now apply IH].
    intros Hin. apply Hfresh. now apply keys_replace in Hin.
Qed.

(** [set] never leaves two pairs of one name. *)
Lemma NoDup_set (name value : string) (l : t) :
  NoDup (map fst l) -> NoDup (map fst (set name value l)).
Proof.
  intros Hnd. unfold set. destruct (has name l) eqn:Hhas.
  - now apply NoDup_replace.
  - rewrite map_app. cbn [map fst]. apply NoDup_app; [exact Hnd | repeat constructor; intros [] |].
    intros k Hk [<- | []]. apply in_map_iff in Hk as (q & Hq & Hin).
    unfold has in Hhas. apply Bool.not_true_iff_false in Hhas. apply Hhas.
    apply existsb_exists. exists q. split; [exact Hin |].
    unfold named. rewrite Hq. apply String.eqb_refl.
Qed.

End Params_shape.

Section Preserved.

(** A property of parameter sets that every [set] under an allowed name
    keeps is kept by the whole builder. *)
Variable P : URLSearchParams.t -> Prop.
Variable allowed : string -> Prop.
Hypothesis P_set :
  forall name value l, allowed name -> P l -> P (URLSearchParams.set name value l).
Hypothesis names_allowed : forall name, In name option_names -> allowed name.

Lemma preserved_number (name : string) (v : option number) (l : URLSearchParams.t) :
  In name option_names -> P l -> P (set_number name v l).
Proof.
  intros Hname Hl. unfold set_number. destruct v as [n |]; [| exact Hl].
  destruct (truthy n); [| exact Hl]. now apply P_set; [apply names_allowed |].
Qed.

Lemma preserved_string (name : string) (v : option string) (l : URLSearchParams.t) :
  In name option_names -> P l -> P (set_string name v l).
Proof.
  intros Hname Hl. unfold set_string. destruct v as [s |]; [| exact Hl].
  destruct (nonempty s); [| exact Hl]. now apply P_set; [apply names_allowed |].
Qed.

Lemma preserved_flag (name : string) (v : option bool) (l : URLSearchParams.t) :
  In name option_names -> P l -> P (set_flag name v l).
Proof.
  intros Hname Hl. unfold set_flag. destruct v as [[|] |]; try exact Hl.
  now apply P_set; [apply names_allowed |].
Qed.

Lemma preserved_format (v : option ImageFormat) (l : URLSearchParams.t) :
  P l -> P (set_format v l).
Proof.
  intros Hl. unfold set_format. destruct v as [f |]; [| exact Hl].
  apply P_set; [apply names_allowed; simpl; tauto | exact Hl].
Qed.

Lemma preserved_device (o : ScreenshotOptions) (l l' : URLSearchParams.t) :
  handle_device o l = Returns l' -> P l -> P l'.
Proof.
  intros Hd Hl. unfold handle_device in Hd.
  assert (Hexplicit : P (set_number "height" (height o) (set_number "width" (width o) l))).
  { apply preserved_number; [simpl; tauto |]. apply preserved_number; [simpl; tauto | exact Hl]. }
  destruct (device o) as [[| c d] |]; try (now injection Hd as <-).
  destruct (lookup (String c d)) as [preset | |]; [| discriminate | now injection Hd as <-].
  injection Hd as <-.
  assert (Hsize : P (URLSearchParams.set "height" (toString (preset_height preset))
                       (URLSearchParams.set "width" (toString (preset_width preset)) l))).
  { apply P_set; [apply names_allowed; simpl; tauto |].
    apply P_set; [apply names_allowed; simpl; tauto | exact Hl]. }
  destruct (negb _); [apply P_set; [apply names_allowed; simpl; tauto |] |];
    (destruct (preset_mobile preset);
       [apply P_set; [apply names_allowed; simpl; tauto |] |]); exact Hsize.
Qed.

Lemma gen1_buildParams_preserves (this : Gen1.ShotAPI) (o : ScreenshotOptions)
    (params : URLSearchParams.t) :
  P [("url", url o); ("api_key", Gen1.apiKey this)] ->
  Gen1.buildParams this o = Returns params ->
  P params.
Proof.
  intros Hstart. unfold Gen1.buildParams.
  change (URLSearchParams.set "api_key" (Gen1.apiKey this)
            (URLSearchParams.set "url" (url o) URLSearchParams.empty))
    with [("url", url o); ("api_key", Gen1.apiKey this)].
  destruct (handle_device o _) as [l |] eqn:Hd; cbn [bind]; [| discriminate].
  intros H. injection H as <-. apply preserved_device in Hd; [| exact Hstart].
  repeat first [ apply preserved_number; [simpl; tauto |]
               | apply preserved_string; [simpl; tauto |]
               | apply preserved_flag; [simpl; tauto |]
               | apply preserved_format ].
  exact Hd.
Qed.

Lemma gen2_buildParams_preserves (this : Gen2.ShotAPI) (o : ScreenshotOptions)
    (params : URLSearchParams.t) :
  P [("url", url o); ("api_key", Gen2.apiKey this)] ->
  Gen2.buildParams this o = Returns params ->
  P params.
Proof.
  intros Hstart. unfold Gen2.buildParams.
  change (URLSearchParams.set "api_key" (Gen2.apiKey this)
            (URLSearchParams.set "url" (url o) URLSearchParams.empty))
    with [("url", url o); ("api_key", Gen2.apiKey this)].
  destruct (handle_device o _) as [l |] eqn:Hd; cbn [bind]; [| discriminate].
  intros H. injection H as <-. apply preserved_device in Hd; [| exact Hstart].
  destruct (negb (device_given o));
    repeat first [ apply preserved_number; [simpl; tauto |]
                 | apply preserved_string; [simpl; tauto |]
                 | apply preserved_flag; [simpl; tauto |]
                 | apply preserved_format ];
    exact Hd.
Qed.

End Preserved.

Lemma gen1_buildParams_leads (this : Gen1.ShotAPI) (o : ScreenshotOptions)
    (params : URLSearchParams.t) :
  Gen1.buildParams this o = Returns params ->
  exists rest, params = ("url", url o) :: ("api_key", Gen1.apiKey this) :: rest.
Proof.
  apply (gen1_buildParams_preserves
           (fun l => exists rest, l = ("url", url o) :: ("api_key", Gen1.apiKey this) :: rest)
           (fun name => In name option_names)).
  - intros name value l Hname [rest ->]. eexists. apply set_behind;
      unfold URLSearchParams.named; cbn [fst];
      repeat (destruct Hname as [<- | Hname]; [reflexivity |]); destruct Hname.
  - trivial.
  - now exists [].
Qed.

(** X1.  Whatever the options, the parameters built by the first generation
    start with the target url and the API key, in this order; every other
    parameter comes behind them. *)
Theorem gen1_buildParams_leads_with_url_and_key (this : Gen1.ShotAPI)
    (o : ScreenshotOptions) (params : URLSearchParams.t) :
  Gen1.buildParams this o = Returns params ->
  exists rest, params = ("url", url o) :: ("api_key", Gen1.apiKey this) :: rest.
Proof. apply gen1_buildParams_leads. Qed.

Lemma gen1_buildParams_leads_with_url_and_key_witness :
  Gen1.buildParams Scenario.v1 Scenario.full_page_jpeg
  = Returns [("url", Scenario.example_com); ("api_key", "KEY"); ("width", "1280");
             ("height", "720"); ("full_page", "true"); ("format", "jpeg");
             ("quality", "90"); ("wait_for", "#app")]
  /\
  exists rest,
    [("url", Scenario.example_com); ("api_key", "KEY"); ("width", "1280");
     ("height", "720"); ("full_page", "true"); ("format", "jpeg"); ("quality", "90");
     ("wait_for", "#app")]
    = ("url", Scenario.example_com) :: ("api_key", "KEY") :: rest.
Proof.
  split; [reflexivity |].
  exact (gen1_buildParams_leads_with_url_and_key Scenario.v1 Scenario.full_page_jpeg
           _ eq_refl).
Defined.

(** X2.  The parameters built by the first generation never hold two pairs
    of the same name: an option written twice (a preset and an explicit
    scale) leaves one pair. *)
Theorem gen1_buildParams_names_unique (this : Gen1.ShotAPI) (o : ScreenshotOptions)
    (params : URLSearchParams.t) :
  Gen1.buildParams this o = Returns params ->
  NoDup (map fst params).
Proof.
  apply (gen1_buildParams_preserves (fun l => NoDup (map fst l)) (fun _ => True)).
  - intros name value l _. apply NoDup_set.
  - trivial.
  - cbn [map fst]. repeat constructor; cbn [In]; [| tauto].
    intros [H | []]. discriminate.
Qed.

Lemma gen1_buildParams_names_unique_witness :
  Gen1.buildParams Scenario.v1
    (Scenario.preset_request "iphone-14-pro" (Some (int 2)) (Some true))
  = Returns [("url", Scenario.example_com); ("api_key", "KEY"); ("width", "393");
             ("height", "852"); ("mobile", "true"); ("scale", "2")]
  /\
  NoDup ["url"; "api_key"; "width"; "height"; "mobile"; "scale"].
Proof.
  split; [reflexivity |].
  exact (gen1_buildParams_names_unique Scenario.v1
           (Scenario.preset_request "iphone-14-pro" (Some (int 2)) (Some true))
           _ eq_refl).
Defined.

(** ** What [buildParams] emits *)

(** X3.  Outside the viewport group, the first generation emits an option
    under its wire name exactly when the option is truthy: a flag only as
    [true] (never as [false]), a number only when it is not zero, a string
    only when it is not empty, the format whenever it is given. *)
Theorem gen1_buildParams_wire_names (this : Gen1.ShotAPI) (o : ScreenshotOptions)
    (params : URLSearchParams.t) :
  Gen1.buildParams this o = Returns params ->
  URLSearchParams.get "full_page" params = emitted_flag (fullPage o) /\
  URLSearchParams.get "format" params = option_map ImageFormat_string (format o) /\
  URLSearchParams.get "quality" params = emitted_number (quality o) /\
  URLSearchParams.get "delay" params = emitted_number (delay o) /\
  URLSearchParams.get "wait_for" params = emitted_string (waitForSelector o) /\
  URLSearchParams.get "dark_mode" params = emitted_flag (darkMode o) /\
  URLSearchParams.get "selector" params = emitted_string (selector o) /\
  URLSearchParams.get "css" params = emitted_string (css o) /\
  URLSearchParams.get "js" params = emitted_string (js o) /\
  URLSearchParams.get "block_ads" params = emitted_flag (blockAds o) /\
  URLSearchParams.get "hide_cookie_banners" params = emitted_flag (hideCookieBanners o) /\
  URLSearchParams.get "thumbnail_width" params = emitted_number (thumbnailWidth o).
Proof.
  unfold Gen1.buildParams.
  destruct (handle_device o _) as [l |] eqn:Hd; cbn [bind]; [| discriminate].
  intros H. injection H as <-.
  assert (Hnone : forall k,
             String.eqb k "width" = false -> String.eqb k "height" = false ->
             String.eqb k "mobile" = false -> String.eqb k "scale" = false ->
             String.eqb k "url" = false -> String.eqb k "api_key" = false ->
             URLSearchParams.get k l = None).
  { intros k Hw Hh Hm Hs Hu Ha.
    rewrite (handle_device_other o _ l k Hd Hw Hh Hm Hs).
    now rewrite !get_set, Ha, Hu. }
  repeat split; skip_other_names;
    first [ rewrite get_set_flag_same | rewrite get_set_number_same
          | rewrite get_set_string_same | idtac ];
    skip_other_names; try (rewrite Hnone by reflexivity);
    try match goal with |- later ?x None = _ => now destruct x end.
  unfold set_format. destruct (format o) as [f |]; cbn [option_map].
  - now rewrite get_set.
  - skip_other_names. now rewrite Hnone.
Qed.

Lemma gen1_buildParams_wire_names_witness :
  Gen1.buildParams Scenario.v1 Scenario.full_page_jpeg
  = Returns [("url", Scenario.example_com); ("api_key", "KEY"); ("width", "1280");
             ("height", "720"); ("full_page", "true"); ("format", "jpeg");
             ("quality", "90"); ("wait_for", "#app")]
  /\ URLSearchParams.get "full_page"
       [("url", Scenario.example_com); ("api_key", "KEY"); ("width", "1280");
        ("height", "720"); ("full_page", "true"); ("format", "jpeg");
        ("quality", "90"); ("wait_for", "#app")] = Some "true"
  /\ URLSearchParams.get "block_ads"
       [("url", Scenario.example_com); ("api_key", "KEY"); ("width", "1280");
        ("height", "720"); ("full_page", "true"); ("format", "jpeg");
        ("quality", "90"); ("wait_for", "#app")] = None.
Proof.
  split; [reflexivity |].
  destruct (gen1_buildParams_wire_names Scenario.v1 Scenario.full_page_jpeg _ eq_refl)
    as (Hfull & _ & _ & _ & _ & _ & _ & _ & _ & Hads & _).
  split; [exact Hfull | exact Hads].
Defined.

(** X4.  Without a device, the first generation takes the four viewport
    parameters from the explicit options: width, height and scale when they
    are not zero, mobile when it is [true]. *)
Theorem gen1_buildParams_explicit_viewport (this : Gen1.ShotAPI) (o : ScreenshotOptions) :
  device_given o = false ->
  exists params,
    Gen1.buildParams this o = Returns params /\
    URLSearchParams.get "width" params = emitted_number (width o) /\
    URLSearchParams.get "height" params = emitted_number (height o) /\
    URLSearchParams.get "scale" params = emitted_number (scale o) /\
    URLSearchParams.get "mobile" params = emitted_flag (mobile o).
Proof.
  intros Hdevice. unfold Gen1.buildParams, handle_device.
  unfold device_given in Hdevice.
  assert (Hbranch :
    match device o with
    | Some (String _ _ as d) => None
    | _ => Some tt
    end = Some tt) by (now destruct (device o) as [[| c d] |]).
  destruct (device o) as [[| c d] |]; try discriminate; clear Hbranch Hdevice;
    cbn [bind]; (eexists; split; [reflexivity |]);
    (repeat split; skip_other_names;
     first [ rewrite get_set_flag_same | rewrite get_set_number_same ];
     skip_other_names;
     match goal with |- later ?x _ = _ => now destruct x end).
Qed.

Lemma gen1_buildParams_explicit_viewport_witness :
  exists params,
    Gen1.buildParams Scenario.v1 Scenario.full_page_jpeg = Returns params /\
    URLSearchParams.get "width" params = Some "1280" /\
    URLSearchParams.get "height" params = Some "720" /\
    URLSearchParams.get "scale" params = None /\
    URLSearchParams.get "mobile" params = None.
Proof.
  exact (gen1_buildParams_explicit_viewport Scenario.v1 Scenario.full_page_jpeg eq_refl).
Defined.

(** X5.  With a device of the preset table, the first generation takes
    width and height from the preset, whatever the explicit ones; mobile is
    emitted when the preset or the explicit option says so; the explicit
    scale, when it is not zero, replaces the scale of the preset, which is
    otherwise emitted unless it is 1. *)
Theorem gen1_buildParams_preset_viewport (this : Gen1.ShotAPI) (o : ScreenshotOptions)
    (d : string) (preset : DevicePresetConfig) :
  device o = Some d ->
  DEVICE_PRESETS d = Some preset ->
  exists params,
    Gen1.buildParams this o = Returns params /\
    URLSearchParams.get "width" params = Some (toString (preset_width preset)) /\
    URLSearchParams.get "height" params = Some (toString (preset_height preset)) /\
    URLSearchParams.get "mobile" params
    = later (emitted_flag (mobile o))
            (if preset_mobile preset then Some "true" else None) /\
    URLSearchParams.get "scale" params
    = later (emitted_number (scale o))
            (if number_eqb (preset_scale preset) (int 1) then None
             else Some (toString (preset_scale preset))).
Proof.
  intros Hdevice Hpreset. unfold Gen1.buildParams, handle_device. rewrite Hdevice.
  destruct d as [| c d]; [discriminate |].
  unfold lookup. rewrite Hpreset. cbn [bind]. eexists. split; [reflexivity |].
  repeat split; skip_other_names;
    first [ rewrite get_set_flag_same | rewrite get_set_number_same | idtac ];
    skip_other_names; try f_equal;
    destruct (number_eqb (preset_scale preset) (int 1)), (preset_mobile preset);
    cbn [negb]; now rewrite ?get_set.
Qed.

Lemma gen1_buildParams_preset_viewport_witness :
  exists params,
    Gen1.buildParams Scenario.v1
      (Scenario.preset_request "pixel-7" None (Some false)) = Returns params /\
    URLSearchParams.get "width" params = Some "412" /\
    URLSearchParams.get "height" params = Some "915" /\
    URLSearchParams.get "mobile" params = Some "true" /\
    URLSearchParams.get "scale" params = Some "2.625".
Proof.
  exact (gen1_buildParams_preset_viewport Scenario.v1
           (Scenario.preset_request "pixel-7" None (Some false)) "pixel-7"
           (mkPreset (int 412) (int 915) true (Thousandths 2625)) eq_refl eq_refl).
Defined.

(** X6.  With a device of the preset table, the second generation takes the
    four viewport parameters from the preset alone: the explicit width,
    height, scale and mobile options change nothing. *)
Theorem gen2_buildParams_preset_viewport (this : Gen2.ShotAPI) (o : ScreenshotOptions)
    (d : string) (preset : DevicePresetConfig)
    (w h s : option number) (m : option bool) :
  device o = Some d ->
  DEVICE_PRESETS d = Some preset ->
  exists params,
    Gen2.buildParams this (with_viewport o w h s m) = Returns params /\
    Gen2.buildParams this o = Returns params /\
    URLSearchParams.get "width" params = Some (toString (preset_width preset)) /\
    URLSearchParams.get "height" params = Some (toString (preset_height preset)) /\
    URLSearchParams.get "mobile" params
    = (if preset_mobile preset then Some "true" else None) /\
    URLSearchParams.get "scale" params
    = (if number_eqb (preset_scale preset) (int 1) then None
       else Some (toString (preset_scale preset))).
Proof.
  intros Hdevice Hpreset.
  assert (Hgiven : device_given o = true).
  { unfold device_given. rewrite Hdevice. now destruct d. }
  rewrite (gen2_preset_wins this o w h s m Hgiven).
  unfold Gen2.buildParams, handle_device. rewrite Hgiven, Hdevice.
  destruct d as [| c d]; [discriminate |].
  unfold lookup. rewrite Hpreset. cbn [bind negb]. eexists.
  split; [reflexivity |]. split; [reflexivity |].
  repeat split; skip_other_names;
    destruct (number_eqb (preset_scale preset) (int 1)), (preset_mobile preset);
    cbn [negb]; now rewrite ?get_set.
Qed.

Lemma gen2_buildParams_preset_viewport_witness :
  exists params,
    Gen2.buildParams Scenario.v2
      (with_viewport (Scenario.preset_request "iphone-14-pro" None None)
         (Some (int 999)) None (Some (int 2)) (Some false)) = Returns params /\
    Gen2.buildParams Scenario.v2 (Scenario.preset_request "iphone-14-pro" None None)
    = Returns params /\
    URLSearchParams.get "width" params = Some "393" /\
    URLSearchParams.get "height" params = Some "852" /\
    URLSearchParams.get "mobile" params = Some "true" /\
    URLSearchParams.get "scale" params = Some "3".
Proof.
  exact (gen2_buildParams_preset_viewport Scenario.v2
           (Scenario.preset_request "iphone-14-pro" None None) "iphone-14-pro"
           (mkPreset (int 393) (int 852) true (int 3))
           (Some (int 999)) None (Some (int 2)) (Some false) eq_refl eq_refl).
Defined.

(** ** More on the retry loop of the first generation *)

Lemma gen1_try_block_returns (fetched : outcome Response) (data : json) :
  Gen1.try_block fetched = Returns data ->
  exists response,
    fetched = Returns response /\ ok response = true /\ body response = Returns data.
Proof.
  unfold Gen1.try_block, bind. destruct fetched as [response | e]; [| discriminate].
  destruct (body response) as [parsed | e] eqn:Hbody; [| discriminate].
  destruct (ok response) eqn:Hok; cbn [negb].
  - intros H. injection H as <-. now exists response.
  - destruct parsed; discriminate.
Qed.

Section Gen1_request_more.

Variable this : Gen1.ShotAPI.
Variable net : server.
Variable request_url : string.

Lemma gen1_attempts_shape (remaining : nat) :
  forall (attempt : Z) (last : option thrown),
    (1 <= remaining)%nat ->
    attempt + Z.of_nat remaining = Gen1.retries this + 1 ->
    exists k,
      (k < remaining)%nat /\
      fst (Gen1.attempts this net request_url remaining attempt last)
      = backoff request_url attempt k.
Proof.
  induction remaining as [| r IH]; intros attempt last Hsome Hleft; [lia |].
  cbn [Gen1.attempts].
  destruct (Gen1.try_block (net request_url attempt)) as [data | error];
    [exists O; split; [lia | reflexivity] |].
  destruct (Gen1.client_error error); [exists O; split; [lia | reflexivity] |].
  destruct (Z.ltb_spec attempt (Gen1.retries this)) as [Hmore | Hlast].
  - destruct (IH (attempt + 1) (Some error)) as (k & Hk & Hlog); [lia | lia |].
    exists (S k). split; [lia |].
    destruct (Gen1.attempts this net request_url r (attempt + 1) (Some error))
      as [log result].
    cbn [fst app backoff] in *. now rewrite Hlog, (Z.mul_comm 1000).
  - assert (r = O) by lia. subst r. exists O. split; [lia | reflexivity].
Qed.

Lemma gen1_attempts_returns (remaining : nat) :
  forall (attempt : Z) (last : option thrown) (data : json),
    snd (Gen1.attempts this net request_url remaining attempt last) = Returns data ->
    exists n response,
      attempt <= n < attempt + Z.of_nat remaining /\
      net request_url n = Returns response /\
      ok response = true /\ body response = Returns data.
Proof.
  induction remaining as [| r IH]; intros attempt last data; cbn [Gen1.attempts].
  - destruct last; discriminate.
  - destruct (Gen1.try_block (net request_url attempt)) as [parsed | error] eqn:Htry.
    + cbn [snd]. intros H. injection H as <-.
      apply gen1_try_block_returns in Htry as (response & Hnet & Hok & Hbody).
      exists attempt, response. repeat split; try assumption; lia.
    + destruct (Gen1.client_error error); [discriminate |].
      destruct (Gen1.attempts this net request_url r (attempt + 1) (Some error))
        as [log result] eqn:Hrec.
      cbn [snd]. intros Hresult.
      destruct (IH (attempt + 1) (Some error) data) as (n & response & Hn & H);
        [now rewrite Hrec |].
      exists n, response. split; [lia | exact H].
Qed.

End Gen1_request_more.

(** X7.  With a retry count that is not negative, every call of [request]
    in the first generation sends at least one and at most [retries + 1]
    requests, all to the same url, with a wait of 1s, 2s, 4s, ... between
    two consecutive requests and none before the first or after the last. *)
Theorem gen1_request_shape (this : Gen1.ShotAPI) (net : server) (endpoint : string)
    (params : URLSearchParams.t) :
  0 <= Gen1.retries this ->
  exists failures,
    Z.of_nat failures <= Gen1.retries this /\
    fst (Gen1.request this net endpoint params)
    = backoff (Gen1.baseUrl this ++ endpoint ++ "?" ++ URLSearchParams.toString params)
              0 failures.
Proof.
  intros Hretries. unfold Gen1.request.
  destruct (gen1_attempts_shape this net
              (Gen1.baseUrl this ++ endpoint ++ "?" ++ URLSearchParams.toString params)
              (Z.to_nat (Gen1.retries this + 1)) 0 None) as (k & Hk & Hlog);
    [lia | lia |].
  exists k. split; [lia | exact Hlog].
Qed.

Lemma gen1_request_shape_witness :
  exists failures,
    Z.of_nat failures <= 2 /\
    fst (Gen1.request Scenario.v1 Scenario.not_found_page Scenario.endpoint
           Scenario.example_params)
    = backoff Scenario.example_request 0 failures.
Proof.
  apply (gen1_request_shape Scenario.v1 Scenario.not_found_page Scenario.endpoint
           Scenario.example_params).
  simpl. lia.
Defined.

(** X8.  With a negative retry count (which [retries ?? 2] lets through),
    [request] in the first generation sends nothing and throws the fallback
    error 'Request failed after retries', without code or status. *)
Theorem gen1_request_negative_retries (this : Gen1.ShotAPI) (net : server)
    (endpoint : string) (params : URLSearchParams.t) :
  Gen1.retries this < 0 ->
  Gen1.request this net endpoint params
  = ([], Throws (Exception (mkException "Request failed after retries" None None None))).
Proof.
  intros Hretries. unfold Gen1.request.
  now replace (Z.to_nat (Gen1.retries this + 1)) with O by lia.
Qed.

Lemma gen1_request_negative_retries_witness :
  Gen1.request (Gen1.mkClient "KEY" "https://shotapi.dev" 30000 (-1)) Scenario.echo
    Scenario.endpoint Scenario.example_params
  = ([], Throws (Exception (mkException "Request failed after retries" None None None))).
Proof.
  apply gen1_request_negative_retries. simpl. lia.
Defined.

(** X9.  What [request] returns in the first generation is always the
    parsed body of a 2xx response to one of its attempts: a payload never
    comes from a response that is not ok, nor from nowhere. *)
Theorem gen1_request_returns_ok_body (this : Gen1.ShotAPI) (net : server)
    (endpoint : string) (params : URLSearchParams.t) (data : json) :
  snd (Gen1.request this net endpoint params) = Returns data ->
  exists n response,
    0 <= n <= Gen1.retries this /\
    net (Gen1.baseUrl this ++ endpoint ++ "?" ++ URLSearchParams.toString params) n
    = Returns response /\
    200 <= status response <= 299 /\
    body response = Returns data.
Proof.
  intros Hreturns. unfold Gen1.request in Hreturns.
  apply gen1_attempts_returns in Hreturns as (n & response & Hn & Hnet & Hok & Hbody).
  exists n, response. repeat split; try assumption; try lia;
    unfold ok in Hok; apply andb_true_iff in Hok as [Hlow Hhigh];
    apply Z.leb_le in Hlow, Hhigh; assumption.
Qed.

Lemma gen1_request_returns_ok_body_witness :
  exists n response,
    0 <= n <= 2 /\
    Scenario.busy_twice Scenario.example_request n = Returns response /\
    200 <= status response <= 299 /\
    body response = Returns (Scenario.shot "capture").
Proof.
  exact (gen1_request_returns_ok_body Scenario.v1 Scenario.busy_twice Scenario.endpoint
           Scenario.example_params (Scenario.shot "capture") eq_refl).
Defined.

(** X10.  In the first generation a 4xx answer whose body is a JSON object
    ends the call on the attempt that got it, with no wait: the exception
    carries the [error] field of the body as its message ('Unknown error'
    when the field is missing or empty), its [code] and [details], and the
    status. *)
Theorem gen1_request_client_error_json (this : Gen1.ShotAPI) (net : server)
    (endpoint : string) (params : URLSearchParams.t) (response : Response)
    (error code details : option string) (payload : string) :
  0 <= Gen1.retries this ->
  net (Gen1.baseUrl this ++ endpoint ++ "?" ++ URLSearchParams.toString params) 0
  = Returns response ->
  400 <= status response < 500 ->
  body response = Returns (JObject error code details payload) ->
  Gen1.request this net endpoint params
  = ([Fetch (Gen1.baseUrl this ++ endpoint ++ "?" ++ URLSearchParams.toString params)],
     Throws (Exception (mkException (or_else error "Unknown error") code details
                                    (Some (status response))))).
Proof.
  intros Hretries Hnet Hstatus Hbody. unfold Gen1.request.
  replace (Z.to_nat (Gen1.retries this + 1)) with (S (Z.to_nat (Gen1.retries this)))
    by lia.
  cbn [Gen1.attempts]. rewrite Hnet. unfold Gen1.try_block, bind. rewrite Hbody.
  assert (Hok : ok response = false).
  { unfold ok. destruct (Z.leb_spec (status response) 299); [lia |]. apply andb_false_r. }
  rewrite Hok. cbn [negb Gen1.client_error statusCode].
  destruct (Z.eqb_spec (status response) 0); [lia |].
  destruct (Z.ltb_spec (status response) 500); [reflexivity | lia].
Qed.

Lemma gen1_request_client_error_json_witness :
  Gen1.request Scenario.v1 Scenario.bad_request Scenario.endpoint Scenario.example_params
  = ([Fetch Scenario.example_request],
     Throws (Exception (mkException "Invalid selector" (Some "BAD_SELECTOR") None
                                    (Some 400)))).
Proof.
  apply (gen1_request_client_error_json Scenario.v1 Scenario.bad_request
           Scenario.endpoint Scenario.example_params
           (mkResponse 400 "Bad Request"
              (Returns (JObject (Some "Invalid selector") (Some "BAD_SELECTOR") None "none")))
           (Some "Invalid selector") (Some "BAD_SELECTOR") None "none").
  - simpl. lia.
  - reflexivity.
  - simpl. lia.
  - reflexivity.
Defined.

(** ** Construction, [screenshot] and [batch] in the first generation *)

(** X11.  The constructor of the first generation throws 'API key is
    required' exactly when the key is empty; any other configuration (a
    timeout of zero, a negative retry count, an empty base url) gives a
    client that holds the key as it was given. *)
Theorem gen1_constructor_requires_key (config : ShotAPIConfig) :
  (config_apiKey config = EmptyString /\
   Gen1.constructor config
   = Throws (Exception (mkException "API key is required" None None None)))
  \/
  (config_apiKey config <> EmptyString /\
   exists this,
     Gen1.constructor config = Returns this /\
     Gen1.apiKey this = config_apiKey config).
Proof.
  unfold Gen1.constructor. destruct (config_apiKey config) as [| c key] eqn:Hkey.
  - left. now split.
  - right. split; [discriminate |]. cbn [nonempty negb]. eexists. now split.
Qed.

(** X12.  With an empty url, [screenshot] in the first generation throws
    'URL is required' and sends nothing, whatever the other options and the
    server. *)
Theorem gen1_screenshot_requires_url (this : Gen1.ShotAPI) (net : server)
    (o : ScreenshotOptions) :
  url o = EmptyString ->
  Gen1.screenshot this net o
  = ([], Throws (Exception (mkException "URL is required" None None None))).
Proof. intros Hurl. unfold Gen1.screenshot. now rewrite Hurl. Qed.

Lemma gen1_screenshot_requires_url_witness :
  Gen1.screenshot Scenario.v1 Scenario.echo
    (with_url Scenario.full_page_jpeg EmptyString)
  = ([], Throws (Exception (mkException "URL is required" None None None))).
Proof.
  exact (gen1_screenshot_requires_url Scenario.v1 Scenario.echo
           (with_url Scenario.full_page_jpeg EmptyString) eq_refl).
Defined.






Lemma first_rejection_none_inv {A : Type} (ps : list (settled A)) :
  first_rejection ps = None -> forall t e, ~ In (t, Throws e) ps.
Proof.
  induction ps as [| [t [a | e]] ps IH]; cbn [first_rejection]; intros Hnone t' e' Hin.
  - destruct Hin.
  - destruct Hin as [Hin | Hin]; [discriminate | now apply (IH Hnone t' e')].
  - destruct (first_rejection ps) as [[t'' e''] |]; [destruct (t'' <? t)%nat |];
      discriminate.
Qed.

(** The rejection [Promise.all] settles with is one of the rejections, and
    no other rejection came before it. *)
Lemma first_rejection_earliest {A : Type} (ps : list (settled A)) (t : nat) (e : thrown) :
  first_rejection ps = Some (t, e) ->
  In (t, Throws e) ps /\ forall t' e', In (t', Throws e') ps -> (t <= t')%nat.
Proof.
  revert t e. induction ps as [| [t0 [a | e0]] ps IH]; cbn [first_rejection]; intros t e.
  - discriminate.
  - intros Hfirst. destruct (IH t e Hfirst) as [Hin Hmin]. split; [now right |].
    intros t' e' [Heq | Hin']; [discriminate | now apply (Hmin t' e')].
  - destruct (first_rejection ps) as [[t1 e1] |] eqn:Hrest.
    + destruct (IH t1 e1 eq_refl) as [Hin Hmin].
      destruct (Nat.ltb_spec t1 t0) as [Hlt | Hge]; intros H; injection H as <- <-.
      * split; [now right |]. intros t' e' [Heq | Hin'].
        -- injection Heq as <- <-. lia.
        -- now apply (Hmin t' e').
      * split; [now left |]. intros t' e' [Heq | Hin'].
        -- injection Heq as <- <-. lia.
        -- specialize (Hmin t' e' Hin'). lia.
    + intros H. injection H as <- <-. split; [now left |].
      intros t' e' [Heq | Hin'].
      * injection Heq as <- <-. lia.
      * now destruct (first_rejection_none_inv ps Hrest t' e').
Qed.

Lemma Promise_all_rejects {A : Type} (clock : string -> nat)
    (call : string -> outcome A) (targets : list string) (u0 : string) (e0 : thrown) :
  In u0 targets -> call u0 = Throws e0 ->
  exists u e,
    In u targets /\ call u = Throws e /\
    Promise_all (map (fun u => (clock u, call u)) targets) = Throws e /\
    forall u' e', In u' targets -> call u' = Throws e' -> (clock u <= clock u')%nat.
Proof.
  intros Hin0 Hcall0. unfold Promise_all.
  destruct (first_rejection (map (fun u => (clock u, call u)) targets))
    as [[t e] |] eqn:Hfirst.
  - apply first_rejection_earliest in Hfirst as [Hin Hmin].
    apply in_map_iff in Hin as (u & Heq & Hu). injection Heq as <- Hcall.
    exists u, e. repeat split; try assumption.
    intros u' e' Hu' Hcall'. apply (Hmin (clock u') e').
    apply in_map_iff. exists u'. split; [now rewrite Hcall' | exact Hu'].
  - exfalso. apply (first_rejection_none_inv _ Hfirst (clock u0) e0).
    apply in_map_iff. exists u0. split; [now rewrite Hcall0 | exact Hin0].
Qed.

(** X14.  [batch] in the first generation is all or nothing: as soon as one
    call fails the batch throws, no response is returned, and the error is
    that of a failed call that no other failed call settled before. *)
Theorem gen1_batch_all_or_nothing (this : Gen1.ShotAPI) (net : server)
    (finish : string -> nat) (urls : list string) (options : ScreenshotOptions)
    (u0 : string) (e0 : thrown) :
  In u0 urls ->
  snd (Gen1.screenshot this net (with_url options u0)) = Throws e0 ->
  exists u e,
    In u urls /\
    snd (Gen1.screenshot this net (with_url options u)) = Throws e /\
    snd (Gen1.batch this net finish urls options) = Throws e /\
    forall u' e',
      In u' urls ->
      snd (Gen1.screenshot this net (with_url options u')) = Throws e' ->
      (finish u <= finish u')%nat.
Proof.
  intros Hin Hcall. unfold Gen1.batch. cbn [snd].
  exact (Promise_all_rejects finish
           (fun u => snd (Gen1.screenshot this net (with_url options u)))
           urls u0 e0 Hin Hcall).
Qed.

Lemma gen1_batch_all_or_nothing_witness :
  exists u e,
    In u ["https://a.example"; EmptyString; "https://c.example"] /\
    snd (Gen1.screenshot Scenario.v1 Scenario.echo (with_url (only_url "x") u))
    = Throws e /\
    snd (Gen1.batch Scenario.v1 Scenario.echo (fun _ => 1%nat)
           ["https://a.example"; EmptyString; "https://c.example"] (only_url "x"))
    = Throws e /\
    forall u' e',
      In u' ["https://a.example"; EmptyString; "https://c.example"] ->
      snd (Gen1.screenshot Scenario.v1 Scenario.echo (with_url (only_url "x") u'))
      = Throws e' ->
      (1 <= 1)%nat.
Proof.
  apply (gen1_batch_all_or_nothing Scenario.v1 Scenario.echo (fun _ => 1%nat)
           ["https://a.example"; EmptyString; "https://c.example"] (only_url "x")
           EmptyString (Exception (mkException "URL is required" None None None))).
  - simpl. tauto.
  - reflexivity.
Defined.

(** ** The preset table *)

(** X15.  [devicePresets] lists exactly the names for which
    [getDevicePreset] finds a preset of the table; every preset has a
    positive width and height, and its scale differs from 1 exactly when it
    is mobile (so a preset emits [scale] and [mobile] together or not at
    all). *)
Theorem devicePresets_complete (d : string) :
  (In d devicePresets <-> exists preset, getDevicePreset d = Own preset) /\
  forall preset,
    getDevicePreset d = Own preset ->
    0 < thousandths (preset_width preset) /\
    0 < thousandths (preset_height preset) /\
    preset_mobile preset = negb (number_eqb (preset_scale preset) (int 1)).
Proof.
  split; [split |].
  - intros Hin. simpl in Hin.
    repeat (destruct Hin as [<- | Hin]; [eexists; reflexivity |]). destruct Hin.
  - intros [preset Hown]. unfold getDevicePreset, lookup, DEVICE_PRESETS in Hown.
    repeat match type of Hown with
           | context [String.eqb d ?name] =>
               destruct (String.eqb_spec d name) as [-> | _]; [simpl; tauto |]
           end.
    destruct (existsb _ _); discriminate.
  - intros preset Hown. unfold getDevicePreset, lookup, DEVICE_PRESETS in Hown.
    repeat match type of Hown with
           | context [if String.eqb d ?name then Some ?p else _] =>
               destruct (String.eqb d name);
                 [injection Hown as <-; cbn; repeat split; lia |]
           end.
    destruct (existsb _ _); discriminate.
Qed.

(** ** The executor of the second generation *)

Lemma gen2_attempt_once_raise (this : Gen2.ShotAPI) (fetched : outcome Response)
    (error : thrown) :
  Gen2.attempt_once this fetched = Gen2.Raise error -> exists x, error = Exception x.
Proof.
  unfold Gen2.attempt_once.
  destruct fetched as [response | [e | name msg |]]; try discriminate.
  - destruct (negb (ok response)).
    + destruct (_ && _); [| discriminate]. intros H. injection H as <-. now eexists.
    + destruct (body response) as [data | [e | name msg |]]; try discriminate.
      intros H. injection H as <-. now eexists.
  - intros H. injection H as <-. now eexists.
Qed.

Section Gen2_request.

Variable this : Gen2.ShotAPI.
Variable net : server.
Variable request_url : string.

Lemma gen2_attempts_throw_exceptions (remaining : nat) :
  forall (attempt : Z) (last : option ShotAPIException) (e : thrown),
    snd (Gen2.attempts this net request_url remaining attempt last) = Throws e ->
    exists x, e = Exception x.
Proof.
  induction remaining as [| r IH]; intros attempt last e; cbn [Gen2.attempts].
  - cbn [snd]. intros H. injection H as <-. now eexists.
  - destruct (Gen2.attempt_once this (net request_url attempt)) as [data | error | x]
      eqn:Honce.
    + discriminate.
    + cbn [snd]. intros H. injection H as <-.
      now apply gen2_attempt_once_raise in Honce.
    + destruct (Gen2.attempts this net request_url r (attempt + 1) (Some x))
        as [log result] eqn:Hrec.
      cbn [snd]. intros ->. apply (IH (attempt + 1) (Some x)). now rewrite Hrec.
Qed.

Lemma gen2_attempts_all_aborted (remaining : nat) :
  forall (attempt : Z) (last : option ShotAPIException),
    attempt + Z.of_nat (S remaining) = Gen2.retries this + 1 ->
    (forall n, attempt <= n <= Gen2.retries this ->
               exists msg, net request_url n = Throws (JsError "AbortError" msg)) ->
    Gen2.attempts this net request_url (S remaining) attempt last
    = (backoff request_url attempt remaining, Throws (Exception (timeout_error this))).
Proof.
  induction remaining as [| r IH]; intros attempt last Hleft Haborted.
  - destruct (Haborted attempt) as [msg Hnet]; [lia |].
    cbn [Gen2.attempts]. rewrite Hnet. cbn [Gen2.attempt_once].
    destruct (Z.ltb_spec attempt (Gen2.retries this)); [lia | reflexivity].
  - destruct (Haborted attempt) as [msg Hnet]; [lia |].
    change (Gen2.attempts this net request_url (S (S r)) attempt last)
      with (match Gen2.attempt_once this (net request_url attempt) with
            | Gen2.Done data => ([Fetch request_url], Returns data)
            | Gen2.Raise error => ([Fetch request_url], Throws error)
            | Gen2.Retry error =>
                let wait := if attempt <? Gen2.retries this
                            then [Sleep (2 ^ attempt * 1000)] else [] in
                let (log, result) :=
                  Gen2.attempts this net request_url (S r) (attempt + 1) (Some error) in
                (Fetch request_url :: wait ++ log, result)
            end).
    rewrite Hnet. cbn [Gen2.attempt_once].
    rewrite IH; [| lia | intros n Hn; apply Haborted; lia].
    destruct (Z.ltb_spec attempt (Gen2.retries this)); [| lia].
    cbn [app backoff]. now rewrite (Z.mul_comm 1000).
Qed.

End Gen2_request.

(** X16.  Whatever the server does, [request] in the second generation
    throws nothing but [ShotAPIException]s: a rejected fetch, an aborted one
    or a body that is not JSON never reaches the caller as a raw error. *)
Theorem gen2_request_throws_exceptions (this : Gen2.ShotAPI) (net : server)
    (endpoint : string) (params : URLSearchParams.t) (e : thrown) :
  snd (Gen2.request this net endpoint params) = Throws e ->
  exists x, e = Exception x.
Proof. unfold Gen2.request. apply gen2_attempts_throw_exceptions. Qed.

Lemma gen2_request_throws_exceptions_witness :
  snd (Gen2.request Scenario.v2 Scenario.broken_gateway Scenario.endpoint
         Scenario.example_params)
  = Throws (Exception (mkException "HTTP 500: Internal Server Error" (Some "HTTP_ERROR")
                                   None (Some 500)))
  /\
  exists x,
    Exception (mkException "HTTP 500: Internal Server Error" (Some "HTTP_ERROR") None
                           (Some 500)) = Exception x.
Proof.
  split; [reflexivity |].
  exact (gen2_request_throws_exceptions Scenario.v2 Scenario.broken_gateway
           Scenario.endpoint Scenario.example_params _ eq_refl).
Defined.

(** X17.  In the second generation a 4xx answer ends the call on the first
    attempt, whatever its body: one request, no wait, and an exception that
    carries the status and always a code ('HTTP_ERROR' when the body gives
    none). *)
Theorem gen2_request_client_error (this : Gen2.ShotAPI) (net : server)
    (endpoint : string) (params : URLSearchParams.t) (response : Response) :
  0 <= Gen2.retries this ->
  net (Gen2.baseUrl this ++ endpoint ++ "?" ++ URLSearchParams.toString params) 0
  = Returns response ->
  400 <= status response < 500 ->
  Gen2.request this net endpoint params
  = ([Fetch (Gen2.baseUrl this ++ endpoint ++ "?" ++ URLSearchParams.toString params)],
     Throws (Exception (Gen2.http_error response))) /\
  statusCode (Gen2.http_error response) = Some (status response) /\
  exists c, code (Gen2.http_error response) = Some c.
Proof.
  intros Hretries Hnet Hstatus. split; [| split].
  - unfold Gen2.request.
    replace (Z.to_nat (Gen2.retries this + 1)) with (S (Z.to_nat (Gen2.retries this)))
      by lia.
    now apply gen2_client_error_not_retried.
  - unfold Gen2.http_error. now destruct (body response) as [[| text | e c d p] | e].
  - unfold Gen2.http_error. destruct (body response) as [[| text | e c d p] | e];
      now eexists.
Qed.

Lemma gen2_request_client_error_witness :
  Gen2.request Scenario.v2 Scenario.not_found_page Scenario.endpoint
    Scenario.example_params
  = ([Fetch Scenario.example_request],
     Throws (Exception (mkException "HTTP 404: Not Found" (Some "HTTP_ERROR") None
                                    (Some 404)))) /\
  Some 404 = Some 404 /\
  exists c, Some "HTTP_ERROR" = Some c.
Proof.
  apply (gen2_request_client_error Scenario.v2 Scenario.not_found_page Scenario.endpoint
           Scenario.example_params
           (mkResponse 404 "Not Found" Scenario.not_json)).
  - simpl. lia.
  - reflexivity.
  - simpl. lia.
Defined.

(** X18.  When the timeout aborts every fetch, [request] in the second
    generation sends [retries + 1] requests, with waits of 1s, 2s, 4s, ...
    between them, and throws a [TIMEOUT] exception that names the configured
    timeout. *)
Theorem gen2_request_timeout (this : Gen2.ShotAPI) (net : server)
    (endpoint : string) (params : URLSearchParams.t) :
  0 <= Gen2.retries this ->
  (forall n, 0 <= n <= Gen2.retries this ->
     exists msg,
       net (Gen2.baseUrl this ++ endpoint ++ "?" ++ URLSearchParams.toString params) n
       = Throws (JsError "AbortError" msg)) ->
  Gen2.request this net endpoint params
  = (backoff (Gen2.baseUrl this ++ endpoint ++ "?" ++ URLSearchParams.toString params)
             0 (Z.to_nat (Gen2.retries this)),
     Throws (Exception (timeout_error this))).
Proof.
  intros Hretries Haborted. unfold Gen2.request.
  replace (Z.to_nat (Gen2.retries this + 1)) with (S (Z.to_nat (Gen2.retries this)))
    by lia.
  apply gen2_attempts_all_aborted; [lia | exact Haborted].
Qed.

Lemma gen2_request_timeout_witness :
  Gen2.request Scenario.v2 Scenario.never_answers Scenario.endpoint
    Scenario.example_params
  = ([Fetch Scenario.example_request; Sleep 1000;
      Fetch Scenario.example_request; Sleep 2000;
      Fetch Scenario.example_request],
     Throws (Exception (mkException "Request timeout after 30000ms" (Some "TIMEOUT")
                                    None None))).
Proof.
  apply (gen2_request_timeout Scenario.v2 Scenario.never_answers Scenario.endpoint
           Scenario.example_params).
  - simpl. lia.
  - intros n _. now eexists.
Defined.

(** ** Validation in the second generation *)

(** X19.  In the second generation a url that is not empty and whose
    protocol, as the URL parser reads it, is neither [http:] nor [https:]
    (or that the parser refuses) makes [screenshot] throw [INVALID_URL]
    without sending anything. *)
Theorem gen2_screenshot_invalid_url (protocol : string -> option string)
    (this : Gen2.ShotAPI) (net : server) (o : ScreenshotOptions) :
  nonempty (url o) = true ->
  (forall parsed, protocol (url o) = Some parsed ->
                  parsed <> "http:" /\ parsed <> "https:") ->
  Gen2.screenshot protocol this net o
  = ([], Throws (Exception (mkException
           ("Invalid URL: " ++ url o ++ ". URL must start with http:// or https://")
           (Some "INVALID_URL") None None))).
Proof.
  intros Hurl Hscheme. apply gen2_invalid_url; [exact Hurl |].
  now apply gen2_not_http_is_invalid.
Qed.

Lemma gen2_screenshot_invalid_url_witness :
  Gen2.screenshot (fun u => if String.eqb u "ftp://x" then Some "ftp:" else None)
    Scenario.v2 Scenario.echo (only_url "ftp://x")
  = ([], Throws (Exception (mkException
           "Invalid URL: ftp://x. URL must start with http:// or https://"
           (Some "INVALID_URL") None None))).
Proof.
  apply (gen2_screenshot_invalid_url
           (fun u => if String.eqb u "ftp://x" then Some "ftp:" else None)
           Scenario.v2 Scenario.echo (only_url "ftp://x")).
  - reflexivity.
  - intros parsed H. cbn in H. injection H as <-. split; discriminate.
Defined.

(** X20.  In the second generation, once the url is accepted, a quality
    below 1 or above 100 makes [screenshot] throw [INVALID_QUALITY] without
    sending anything; zero is rejected too, though it is falsy. *)
Theorem gen2_screenshot_invalid_quality (protocol : string -> option string)
    (this : Gen2.ShotAPI) (net : server) (o : ScreenshotOptions) (q : number) :
  nonempty (url o) = true ->
  Gen2.isValidUrl protocol (url o) = true ->
  quality o = Some q ->
  thousandths q < 1000 \/ 100000 < thousandths q ->
  Gen2.screenshot protocol this net o
  = ([], Throws (Exception (mkException "Quality must be between 1 and 100"
                                        (Some "INVALID_QUALITY") None None))).
Proof. apply gen2_quality_out_of_range. Qed.

Lemma gen2_screenshot_invalid_quality_witness :
  Gen2.screenshot (fun _ => Some "https:") Scenario.v2 Scenario.echo
    (Scenario.with_quality 0)
  = ([], Throws (Exception (mkException "Quality must be between 1 and 100"
                                        (Some "INVALID_QUALITY") None None))).
Proof.
  apply (gen2_screenshot_invalid_quality (fun _ => Some "https:") Scenario.v2
           Scenario.echo (Scenario.with_quality 0) (int 0)).
  - reflexivity.
  - reflexivity.
  - reflexivity.
  - left. simpl. lia.
Defined.

(** X21.  In the second generation, once the url and the quality are
    accepted, a delay below 0 or above 10000 makes [screenshot] throw
    [INVALID_DELAY] without sending anything. *)
Theorem gen2_screenshot_invalid_delay (protocol : string -> option string)
    (this : Gen2.ShotAPI) (net : server) (o : ScreenshotOptions) (d : number) :
  nonempty (url o) = true ->
  Gen2.isValidUrl protocol (url o) = true ->
  Gen2.out_of_range (quality o) 1 100 = false ->
  delay o = Some d ->
  thousandths d < 0 \/ 10000000 < thousandths d ->
  Gen2.screenshot protocol this net o
  = ([], Throws (Exception (mkException "Delay must be between 0 and 10000 milliseconds"
                                        (Some "INVALID_DELAY") None None))).
Proof.
  intros Hurl Hvalid Hquality Hdelay Hrange. unfold Gen2.screenshot.
  rewrite Hurl, Hvalid, Hquality. cbn [negb].
  replace (Gen2.out_of_range (delay o) 0 10000) with true; [reflexivity |].
  rewrite Hdelay. unfold Gen2.out_of_range, number_ltb, int. cbn [thousandths].
  symmetry. apply orb_true_iff. destruct Hrange; [left | right]; apply Z.ltb_lt; lia.
Qed.

Lemma gen2_screenshot_invalid_delay_witness :
  Gen2.screenshot (fun _ => Some "https:") Scenario.v2 Scenario.echo
    (mkOptions Scenario.example_com None None None None None (Some (int 100)) None
               (Some (int 10001)) None None None None None None None None None)
  = ([], Throws (Exception (mkException "Delay must be between 0 and 10000 milliseconds"
                                        (Some "INVALID_DELAY") None None))).
Proof.
  apply (gen2_screenshot_invalid_delay (fun _ => Some "https:") Scenario.v2 Scenario.echo
           (mkOptions Scenario.example_com None None None None None (Some (int 100)) None
                      (Some (int 10001)) None None None None None None None None None)
           (int 10001)).
  - reflexivity.
  - reflexivity.
  - reflexivity.
  - reflexivity.
  - right. simpl. lia.
Defined.

(** X22.  In the second generation, options with an http or https url, a
    quality from 1 to 100 (or none) and a delay from 0 to 10000 (or none)
    pass validation: [screenshot] is then the request for the built
    parameters, bounds included. *)
Theorem gen2_screenshot_valid (protocol : string -> option string)
    (this : Gen2.ShotAPI) (net : server) (o : ScreenshotOptions)
    (params : URLSearchParams.t) :
  nonempty (url o) = true ->
  protocol (url o) = Some "http:" \/ protocol (url o) = Some "https:" ->
  (forall q, quality o = Some q -> 1000 <= thousandths q <= 100000) ->
  (forall d, delay o = Some d -> 0 <= thousandths d <= 10000000) ->
  Gen2.buildParams this o = Returns params ->
  Gen2.screenshot protocol this net o
  = Gen2.request this net "/api/v1/screenshot" params.
Proof.
  intros Hurl Hprotocol Hquality Hdelay Hparams. unfold Gen2.screenshot.
  rewrite Hurl, Hparams. cbn [negb].
  replace (Gen2.isValidUrl protocol (url o)) with true
    by (unfold Gen2.isValidUrl; now destruct Hprotocol as [-> | ->]).
  cbn [negb].
  replace (Gen2.out_of_range (quality o) 1 100) with false.
  - replace (Gen2.out_of_range (delay o) 0 10000) with false; [reflexivity |].
    unfold Gen2.out_of_range, number_ltb, int.
    destruct (delay o) as [d |]; [| reflexivity]. specialize (Hdelay d eq_refl).
    cbn [thousandths]. symmetry. apply orb_false_iff. split; apply Z.ltb_ge; lia.
  - unfold Gen2.out_of_range, number_ltb, int.
    destruct (quality o) as [q |]; [| reflexivity]. specialize (Hquality q eq_refl).
    cbn [thousandths]. symmetry. apply orb_false_iff. split; apply Z.ltb_ge; lia.
Qed.

Lemma gen2_screenshot_valid_witness :
  Gen2.screenshot (fun _ => Some "https:") Scenario.v2 Scenario.echo
    (mkOptions Scenario.example_com None None None None None (Some (int 100)) None
               (Some (int 0)) None None None None None None None None None)
  = Gen2.request Scenario.v2 Scenario.echo "/api/v1/screenshot"
      [("url", Scenario.example_com); ("api_key", "KEY"); ("quality", "100")].
Proof.
  apply (gen2_screenshot_valid (fun _ => Some "https:") Scenario.v2 Scenario.echo
           (mkOptions Scenario.example_com None None None None None (Some (int 100)) None
                      (Some (int 0)) None None None None None None None None None)).
  - reflexivity.
  - now right.
  - intros q H. injection H as <-. simpl. lia.
  - intros d H. injection H as <-. simpl. lia.
  - reflexivity.
Defined.

(** ** [batch] in the second generation *)

(** X23.  With a ceiling of at least one and calls that all succeed,
    [batch] in the second generation ends within [length urls] turns of its
    loop; its rounds are consecutive chunks of the urls, in order, each of
    one to [maxConcurrent] urls, with a pause of 100ms between two rounds and
    none after the last; the responses come back in the order of the urls. *)
Theorem gen2_batch_rounds (protocol : string -> option string) (this : Gen2.ShotAPI)
    (net : server) (finish : string -> nat) (urls : list string)
    (options : ScreenshotOptions) :
  1 <= Gen2.maxConcurrent this ->
  (forall u, In u urls ->
     exists data,
       snd (Gen2.screenshot protocol this net (with_url options u)) = Returns data) ->
  exists cs responses,
    Gen2.batch protocol this net finish urls options (S (List.length urls))
    = Some (paced cs, Returns responses) /\
    List.concat cs = urls /\
    Forall (fun c => (1 <= List.length c)%nat
                     /\ Z.of_nat (List.length c) <= Gen2.maxConcurrent this) cs /\
    List.length responses = List.length urls /\
    forall i u, nth_error urls i = Some u ->
      exists data,
        nth_error responses i = Some data /\
        snd (Gen2.screenshot protocol this net (with_url options u)) = Returns data.
Proof.
  intros Hceiling Hall.
  destruct (gen2_batch_chunked protocol this net finish urls options Hceiling Hall)
    as (cs & responses & Hbatch & Hcs & Hmap).
  exists cs, responses. split; [exact Hbatch |]. split; [now apply Chunked_concat in Hcs |].
  split.
  - apply Chunked_sizes in Hcs; [| lia].
    eapply Forall_impl; [| exact Hcs]. cbn beta. intros c Hc. lia.
  - now apply in_order_nth.
Qed.

Lemma gen2_batch_rounds_witness :
  exists cs responses,
    Gen2.batch (fun _ => Some "https:") Scenario.v2 Scenario.echo
      (fun u => if String.eqb u "a" then 9%nat else 0%nat)
      Scenario.six (only_url EmptyString) 7
    = Some (paced cs, Returns responses) /\
    List.concat cs = Scenario.six /\
    Forall (fun c => (1 <= List.length c)%nat /\ Z.of_nat (List.length c) <= 2) cs /\
    List.length responses = 6%nat /\
    forall i u, nth_error Scenario.six i = Some u ->
      exists data,
        nth_error responses i = Some data /\
        snd (Gen2.screenshot (fun _ => Some "https:") Scenario.v2 Scenario.echo
               (with_url (only_url EmptyString) u)) = Returns data.
Proof.
  apply (gen2_batch_rounds (fun _ => Some "https:") Scenario.v2 Scenario.echo
           (fun u => if String.eqb u "a" then 9%nat else 0%nat)
           Scenario.six (only_url EmptyString)).
  - simpl. lia.
  - intros u Hu. simpl in Hu.
    destruct Hu as [<- | [<- | [<- | [<- | [<- | [<- | []]]]]]]; eexists; reflexivity.
Defined.

Lemma gen2_chunks_zero_ceiling (protocol : string -> option string)
    (this : Gen2.ShotAPI) (net : server) (finish : string -> nat) (urls : list string)
    (options : ScreenshotOptions) (fuel : nat) :
  Gen2.maxConcurrent this = 0 ->
  urls <> [] ->
  forall results, Gen2.chunks protocol this net finish urls options fuel 0 results = None.
Proof.
  intros Hzero Hurls.
  assert (Hslice : slice urls 0 0 = []).
  { unfold slice, clamp. cbn [Z.ltb Z.compare]. now rewrite Z.min_l, Z.sub_diag by lia. }
  assert (Hlen : (0 <? Z.of_nat (List.length urls)) = true).
  { apply Z.ltb_lt. destruct urls; [congruence | cbn [List.length]; lia]. }
  induction fuel as [| fuel IH]; intros results; [reflexivity |].
  cbn [Gen2.chunks]. rewrite Hzero, Z.add_0_r, Hslice, Hlen.
  cbn [map Promise_all first_rejection fulfilled]. now rewrite IH.
Qed.

(** X24.  The second generation accepts [maxConcurrent: 0] ([??] keeps the
    zero), and [batch] on such a client never returns for a list of urls
    that is not empty: every turn of the loop starts an empty round, pauses
    and comes back to the same index, however many turns are allowed. *)
Theorem gen2_batch_zero_ceiling_loops (protocol : string -> option string)
    (config : ShotAPIConfig) :
  nonempty (config_apiKey config) = true ->
  config_maxConcurrent config = Some 0 ->
  exists this,
    Gen2.constructor config = Returns this /\
    forall net finish urls options fuel,
      urls <> [] ->
      Gen2.batch protocol this net finish urls options fuel = None.
Proof.
  intros Hkey Hzero. unfold Gen2.constructor. rewrite Hkey, Hzero. cbn [negb].
  eexists. split; [reflexivity |].
  intros net finish urls options fuel Hurls. unfold Gen2.batch.
  now apply gen2_chunks_zero_ceiling.
Qed.

Lemma gen2_batch_zero_ceiling_loops_witness :
  exists this,
    Gen2.constructor (mkConfig "KEY" None None None (Some 0)) = Returns this /\
    forall net finish urls options fuel,
      urls <> [] ->
      Gen2.batch (fun _ => Some "https:") this net finish urls options fuel = None.
Proof.
  exact (gen2_batch_zero_ceiling_loops (fun _ => Some "https:")
           (mkConfig "KEY" None None None (Some 0)) eq_refl eq_refl).
Defined.

(** X25.  In the second generation a call that fails in the first chunk
    ends the batch there: the batch throws the error of a failed call of
    that chunk, no pause follows and no later chunk is started. *)
Theorem gen2_batch_stops_at_failure (protocol : string -> option string)
    (this : Gen2.ShotAPI) (net : server) (finish : string -> nat) (urls : list string)
    (options : ScreenshotOptions) (fuel : nat) (u0 : string) (e0 : thrown) :
  1 <= Gen2.maxConcurrent this ->
  In u0 (firstn (Z.to_nat (Gen2.maxConcurrent this)) urls) ->
  snd (Gen2.screenshot protocol this net (with_url options u0)) = Throws e0 ->
  exists u e,
    In u (firstn (Z.to_nat (Gen2.maxConcurrent this)) urls) /\
    snd (Gen2.screenshot protocol this net (with_url options u)) = Throws e /\
    Gen2.batch protocol this net finish urls options (S fuel)
    = Some ([Round (firstn (Z.to_nat (Gen2.maxConcurrent this)) urls)], Throws e).
Proof.
  intros Hceiling Hin Hcall. unfold Gen2.batch. cbn [Gen2.chunks].
  assert (Hlen : 0 < Z.of_nat (List.length urls)).
  { destruct urls; [| cbn [List.length]; lia]. rewrite firstn_nil in Hin. destruct Hin. }
  destruct (Z.ltb_spec 0 (Z.of_nat (List.length urls))); [| lia].
  rewrite (slice_chunk urls 0 (Gen2.maxConcurrent this)) by lia.
  change (skipn (Z.to_nat 0) urls) with urls.
  destruct (Promise_all_rejects finish
              (fun u => snd (Gen2.screenshot protocol this net (with_url options u)))
              (firstn (Z.to_nat (Gen2.maxConcurrent this)) urls) u0 e0 Hin Hcall)
    as (u & e & Hu & Hfail & Hall & _).
  exists u, e. split; [exact Hu |]. split; [exact Hfail |]. now rewrite Hall.
Qed.

Lemma gen2_batch_stops_at_failure_witness :
  exists u e,
    In u (firstn 2 ["https://a.example"; EmptyString; "https://c.example"]) /\
    snd (Gen2.screenshot (fun _ => Some "https:") Scenario.v2 Scenario.echo
           (with_url (only_url "x") u)) = Throws e /\
    Gen2.batch (fun _ => Some "https:") Scenario.v2 Scenario.echo (fun _ => O)
      ["https://a.example"; EmptyString; "https://c.example"] (only_url "x") 1
    = Some ([Round (firstn 2 ["https://a.example"; EmptyString; "https://c.example"])],
            Throws e).
Proof.
  apply (gen2_batch_stops_at_failure (fun _ => Some "https:") Scenario.v2 Scenario.echo
           (fun _ => O) ["https://a.example"; EmptyString; "https://c.example"]
           (only_url "x") 0 EmptyString
           (Exception (mkException "URL is required" (Some "MISSING_URL") None None))).
  - simpl. lia.
  - simpl. tauto.
  - reflexivity.
Defined.
